(** * bubbletea (boba): runtime loop and cancelable input readers

    A shallow embedding of [boba.go], [inputreader_select.go] and
    [inputreader_linux.go].

    - Go strings are byte strings: [string] of the Standard Library.
    - [error] values are an inductive type with the sentinels the readers
      compare against ([errCanceled], [unix.Errno]) and the two shapes
      [fmt.Errorf] builds (with and without [%w]).
    - Descriptors are [Z]; [uintptr] to [int] and to [int32] conversions have
      their wrap-around written out.
    - System calls are answered by an environment: every function that
      performs one takes the answer as an argument and logs the call in a
      trace, in program order.
    - The goroutines of [Program.Start] and its unbuffered channels are a
      step relation on a system state; a send and its receive are one
      rendezvous step. *)

From Stdlib Require Import ZArith List String Ascii Bool Lia DecimalString.
Set Warnings "-register-all".
Import ListNotations.
Open Scope string_scope.

(** ** Strings: the two functions of Go's [strings] package that [render] calls *)

Module strings.

(** Does [p] start [s]? *)
Fixpoint HasPrefix (s p : string) {struct p} : bool :=
  match p, s with
  | EmptyString, _ => true
  | String a p', String b s' => Ascii.eqb a b && HasPrefix s' p'
  | String _ _, EmptyString => false
  end.

(** [skip] is the number of bytes of the current match still to be passed
    over: matches do not overlap. *)
Fixpoint Count_from (skip : nat) (s substr : string) : nat :=
  match s with
  | EmptyString => 0
  | String _ s' =>
      match skip with
      | S k => Count_from k s' substr
      | O =>
          if HasPrefix s substr
          then S (Count_from (String.length substr - 1) s' substr)
          else Count_from 0 s' substr
      end
  end.

(** [strings.Count(s, substr)] for a non-empty [substr]: the number of
    non-overlapping occurrences, scanning from the left. *)
Definition Count (s substr : string) : nat := Count_from 0 s substr.

Fixpoint Replace_from (skip : nat) (s old new : string) : string :=
  match s with
  | EmptyString => EmptyString
  | String c s' =>
      match skip with
      | S k => Replace_from k s' old new
      | O =>
          if HasPrefix s old
          then new ++ Replace_from (String.length old - 1) s' old new
          else String c (Replace_from 0 s' old new)
      end
  end.

(** [strings.Replace(s, old, new, -1)] for a non-empty [old]: every
    non-overlapping occurrence of [old] replaced, scanning from the left. *)
Definition ReplaceAll (s old new : string) : string := Replace_from 0 s old new.

(** [strings.Join(elems, sep)]. *)
Fixpoint Join (elems : list string) (sep : string) : string :=
  match elems with
  | [] => EmptyString
  | [e] => e
  | e :: rest => e ++ sep ++ Join rest sep
  end.

End strings.

Definition LF : ascii := Ascii.ascii_of_nat 10.
Definition CR : ascii := Ascii.ascii_of_nat 13.
Definition nl : string := String LF EmptyString.
Definition crnl : string := String CR (String LF EmptyString).

(** The number of line-feed bytes of a text: its newline-terminated lines. *)
Fixpoint newlines (s : string) : nat :=
  match s with
  | EmptyString => 0
  | String c s' => (if Ascii.eqb c LF then 1 else 0) + newlines s'
  end.

(** ** What the platform decides *)

(** The constants and texts that the sources at hand take from the platform
    and from the packages they import. *)
Class Platform : Type := {
  FD_SETSIZE : Z;               (* unix.FD_SETSIZE *)
  errCanceled_text : string;    (* errCanceled.Error() *)
  errno_text : Z -> string;     (* unix.Errno(n).Error() *)
  Sprintf0 : string -> string   (* what fmt prints for a format string without operands *)
}.

(** ** Errors *)

Inductive error : Type :=
| errCanceled                                 (* the readers' sentinel *)
| Errno (n : Z)                               (* unix.Errno *)
| errorString (msg : string)                  (* errors.New, fmt.Errorf without %w, os errors *)
| wrapError (msg : string) (inner : error).   (* fmt.Errorf with %w *)

Definition EINTR : error := Errno 4.

Section Errors.

Context {P : Platform}.

(** [err.Error()]. *)
Definition Error (e : error) : string :=
  match e with
  | errCanceled => errCanceled_text
  | Errno n => errno_text n
  | errorString m => m
  | wrapError m _ => m
  end.

(** [fmt.Errorf(prefix + "%w", err)]. *)
Definition Errorf_w (prefix : string) (err : error) : error :=
  wrapError (prefix ++ Error err) err.

(** [fmt.Sprintf(prefix + "%v", err)]. *)
Definition Sprintf_v (prefix : string) (err : error) : string :=
  prefix ++ Error err.

End Errors.

(** [==] on error values: the sentinels compare by value; an error built by
    [fmt.Errorf] or [errors.New] is a fresh pointer, equal to no sentinel. *)
Definition error_eqb (a b : error) : bool :=
  match a, b with
  | errCanceled, errCanceled => true
  | Errno x, Errno y => Z.eqb x y
  | _, _ => false
  end.

(** [errors.Is(err, target)]: walks the [%w] chain. *)
Fixpoint errors_Is (err target : error) : bool :=
  error_eqb err target ||
  match err with
  | wrapError _ inner => errors_Is inner target
  | _ => false
  end.

(** ** Descriptors and descriptor sets *)

Open Scope Z_scope.

(** [Fd()] of an [os.File] is a [uintptr]: a [Z] from 0 to 2^64 - 1.
    [int(x)] of a [uintptr]: *)
Definition to_int (x : Z) : Z :=
  let y := x mod 2 ^ 64 in if y <? 2 ^ 63 then y else y - 2 ^ 64.

(** [int32(x)] of a [uintptr]. *)
Definition to_int32 (x : Z) : Z :=
  let y := x mod 2 ^ 32 in if y <? 2 ^ 31 then y else y - 2 ^ 32.

(** [unix.FdSet]: the bit array as one bit mask, bit [fd] for descriptor
    [fd].  [waitForRead] lets no descriptor at or above [FD_SETSIZE] reach
    [Set]; a descriptor below zero (the [Fd()] of a closed file, converted)
    sets no bit here and is never reported set. *)
Definition FdSet : Type := Z.

Module FdSet.
Definition zero : FdSet := 0%Z.
Definition Set_ (fds : FdSet) (fd : Z) : FdSet := Z.lor fds (Z.shiftl 1 fd).
Definition IsSet (fds : FdSet) (fd : Z) : bool := Z.testbit fds fd.
End FdSet.

(** What a reader is built from: an [os.File] or any other [io.Reader]. *)
Inductive ioReader : Type :=
| osFile (fd : Z)
| otherReader.

(** ** The environment of the readers *)

(** System calls and calls across the decoder boundary, as logged. *)
Inductive Syscall : Type :=
| SysSelect (nfd : Z) (fds : FdSet)
| SysEpollWait (epfd : Z)
| SysRead (fd : Z) (len : nat)
| SysWrite (fd : Z) (bytes : string)
| SysClose (fd : Z)
| SysDecode (fd : Z).

Definition Trace : Type := list Syscall.

(** A call that waits has returned, or is still waiting because the
    environment has not answered yet. *)
Inductive Outcome (A : Type) : Type :=
| Returned (a : A)
| Blocked.
Arguments Returned {A} a.
Arguments Blocked {A}.

(** One turn of a [for] loop ends in [continue] or leaves the function. *)
Inductive LoopCtl (A : Type) : Type :=
| Continue
| Break (a : A).
Arguments Continue {A}.
Arguments Break {A} a.

(** [unix.Select]: an errno, or the descriptor set the kernel leaves. *)
Inductive SelectAnswer : Type :=
| SelectErr (errno : Z)
| SelectOk (ready : FdSet).

(** [unix.EpollWait]: an errno, or the [Fd] of [events[0]] after the call. *)
Inductive EpollAnswer : Type :=
| EpollErr (errno : Z)
| EpollOk (fd : Z).

(** [os.Pipe()]. *)
Inductive PipeAnswer : Type :=
| PipeOk (r w : Z)
| PipeErr (e : error).

(** [int] in decimal, as [%d] prints it. *)
Definition itoa (z : Z) : string := NilZero.string_of_int (Z.to_int z).

(** Modelled from the spec: [cancelMixin], the cancellation flag embedded in
    both readers, whose declaration is not in the sources at hand.  After
    [setCancelled], [isCancelled] is true for every later caller. *)
Record cancelMixin : Type := { unsafeCancelled : bool }.
Definition isCancelled (c : cancelMixin) : bool := unsafeCancelled c.
Definition setCancelled (c : cancelMixin) : cancelMixin := {| unsafeCancelled := true |}.
Definition notCancelled : cancelMixin := {| unsafeCancelled := false |}.

(** [parseInputMsgFromReader(r.file)], for the message type [Msg] of the
    readers' package. *)
Inductive DecodeAnswer (Msg : Type) : Type :=
| DecodeOk (m : Msg)
| DecodeErr (e : error).
Arguments DecodeOk {Msg} m.
Arguments DecodeErr {Msg} e.

(** [([]Msg, error)]. *)
Definition Result (Msg : Type) : Type := (list Msg * option error)%type.

Section Shared.

Context {P : Platform}.

(** [fmt.Errorf(strings.Join(errMsgs, ", "))], or nil when nothing failed. *)
Definition joinErrors (errMsgs : list string) : option error :=
  if (0 <? List.length errMsgs)%nat
  then Some (errorString (Sprintf0 (strings.Join errMsgs ", ")))
  else None.

(** [if err != nil { errMsgs = append(errMsgs, fmt.Sprintf(what + "%v", err)) }] *)
Definition note (errMsgs : list string) (what : string) (err : option error) : list string :=
  match err with
  | Some e => (errMsgs ++ [Sprintf_v what e])%list
  | None => errMsgs
  end.

(** *** inputreader_select.go *)

Definition fdLimitError (maxFd : Z) : error :=
  errorString ("cannot select on file descriptor " ++ itoa maxFd
               ++ " which is larger than 1024").

(** [answer] is what [unix.Select] answers, if it has answered. *)
Definition waitForRead (reader abort : Z) (answer : option SelectAnswer)
  : Outcome (option error) * Trace :=
  let readerFd := to_int reader in
  let abortFd := to_int abort in
  let maxFd := if readerFd <? abortFd then abortFd else readerFd in
  if FD_SETSIZE <=? maxFd then (Returned (Some (fdLimitError maxFd)), [])
  else
    let fdSet := FdSet.Set_ (FdSet.Set_ FdSet.zero readerFd) abortFd in
    let call := [SysSelect (maxFd + 1) fdSet] in
    match answer with
    | None => (Blocked, call)
    | Some (SelectErr n) => (Returned (Some (Errorf_w "select: " (Errno n))), call)
    | Some (SelectOk ready) =>
        if FdSet.IsSet ready abortFd then (Returned (Some errCanceled), call)
        else if FdSet.IsSet ready readerFd then (Returned None, call)
        else (Returned (Some (errorString
                "select returned without setting a file descriptor")), call)
    end.

End Shared.

Module selectInputReader.

Record t : Type := {
  file : Z;
  cancelSignalReader : Z;
  cancelSignalWriter : Z;
  cancel : cancelMixin
}.

Section Methods.

Context {P : Platform} {Msg : Type}.

(** One turn of the [for] loop of [ReadInput].  [sigread] answers the
    one-byte read of the cancel signal, [dec] the decoder. *)
Definition turn (r : t) (answer : option SelectAnswer)
    (sigread : option error) (dec : DecodeAnswer Msg)
  : Outcome (LoopCtl (Result Msg)) * Trace :=
  match waitForRead (file r) (cancelSignalReader r) answer with
  | (Blocked, tr) => (Blocked, tr)
  | (Returned (Some err), tr) =>
      if errors_Is err EINTR then (Returned Continue, tr)
      else if errors_Is err errCanceled then
        let tr' := (tr ++ [SysRead (cancelSignalReader r) 1])%list in
        match sigread with
        | Some readErr =>
            (Returned (Break ([], Some (Errorf_w "reading cancel signal: " readErr))), tr')
        | None => (Returned (Break ([], Some err)), tr')
        end
      else (Returned (Break ([], Some err)), tr)
  | (Returned None, tr) =>
      let tr' := (tr ++ [SysDecode (file r)])%list in
      match dec with
      | DecodeErr err => (Returned (Break ([], Some err)), tr')
      | DecodeOk msg => (Returned (Break ([msg], None)), tr')
      end
  end.

(** The loop, over the answers of the successive [select] calls. *)
Fixpoint loop (r : t) (answers : list SelectAnswer)
    (sigread : option error) (dec : DecodeAnswer Msg) : Outcome (Result Msg) * Trace :=
  match answers with
  | [] =>
      match turn r None sigread dec with
      | (Returned (Break res), tr) => (Returned res, tr)
      | (_, tr) => (Blocked, tr)
      end
  | a :: rest =>
      match turn r (Some a) sigread dec with
      | (Returned (Break res), tr) => (Returned res, tr)
      | (Returned Continue, tr) =>
          let (o, tr') := loop r rest sigread dec in (o, (tr ++ tr')%list)
      | (Blocked, tr) => (Blocked, tr)
      end
  end.

Definition ReadInput (r : t) (answers : list SelectAnswer)
    (sigread : option error) (dec : DecodeAnswer Msg) : Outcome (Result Msg) * Trace :=
  if isCancelled (cancel r) then (Returned ([], Some errCanceled), [])
  else loop r answers sigread dec.

(** [write] answers the write of the one signal byte. *)
Definition Cancel (r : t) (write : option error) : t * bool * Trace :=
  ({| file := file r;
      cancelSignalReader := cancelSignalReader r;
      cancelSignalWriter := cancelSignalWriter r;
      cancel := setCancelled (cancel r) |},
   match write with None => true | Some _ => false end,
   [SysWrite (cancelSignalWriter r) "c"]).

(** [closeW] and [closeR] answer the two [Close] calls on the pipe. *)
Definition Close (r : t) (closeW closeR : option error) : option error * Trace :=
  let errMsgs := [] in
  let errMsgs := note errMsgs "closing cancel signal writer: " closeW in
  let errMsgs := note errMsgs "closing cancel signal reader: " closeR in
  (joinErrors errMsgs,
   [SysClose (cancelSignalWriter r); SysClose (cancelSignalReader r)]).

End Methods.

(** The larger of the two descriptors, as [waitForRead] computes it. *)
Definition maxFd (r : t) : Z :=
  if to_int (file r) <? to_int (cancelSignalReader r)
  then to_int (cancelSignalReader r) else to_int (file r).

(** The descriptor set [waitForRead] hands to [select]. *)
Definition waitSet (r : t) : FdSet :=
  FdSet.Set_ (FdSet.Set_ FdSet.zero (to_int (file r))) (to_int (cancelSignalReader r)).

(** [n] waits in a row that a signal interrupted. *)
Definition EINTRs (n : nat) : list SelectAnswer := repeat (SelectErr 4) n.

End selectInputReader.

(** What [newSelectInputReader] returns: its own reader, whatever
    [newFallbackInputReader(reader)] returns, or [nil, err]. *)
Inductive Constructed : Type :=
| UseSelect (r : selectInputReader.t)
| UseFallback (reader : ioReader)
| ConstructErr (e : error).

(** [pipe] answers [os.Pipe()]. *)
Definition newSelectInputReader {P : Platform} (reader : ioReader) (pipe : PipeAnswer)
  : Constructed :=
  match reader with
  | otherReader => UseFallback reader
  | osFile fd =>
      if FD_SETSIZE <=? fd then UseFallback reader
      else
        match pipe with
        | PipeErr e => ConstructErr e
        | PipeOk r w =>
            UseSelect {| selectInputReader.file := fd;
                         selectInputReader.cancelSignalReader := r;
                         selectInputReader.cancelSignalWriter := w;
                         selectInputReader.cancel := notCancelled |}
        end
  end.

(** *** inputreader_linux.go *)

Module epollInputReader.

Record t : Type := {
  file : Z;
  cancelSignalReader : Z;
  cancelSignalWriter : Z;
  cancel : cancelMixin;
  epoll : Z
}.

Section Methods.

Context {P : Platform} {Msg : Type}.

(** The [switch] of [wait]: which descriptor does [events[0]] name? *)
Definition switch (r : t) (fd : Z) : option error :=
  if fd =? to_int32 (file r) then None
  else if fd =? to_int32 (cancelSignalReader r) then Some errCanceled
  else Some (errorString "unknown error").

(** [wait], over the answers of the successive [EpollWait] calls. *)
Fixpoint wait (r : t) (answers : list EpollAnswer) : Outcome (option error) * Trace :=
  match answers with
  | [] => (Blocked, [SysEpollWait (epoll r)])
  | a :: rest =>
      match a with
      | EpollErr n =>
          if errors_Is (Errno n) EINTR then
            let (o, tr) := wait r rest in (o, SysEpollWait (epoll r) :: tr)
          else (Returned (Some (Errorf_w "kevent: " (Errno n))), [SysEpollWait (epoll r)])
      | EpollOk fd => (Returned (switch r fd), [SysEpollWait (epoll r)])
      end
  end.

Definition ReadInput (r : t) (answers : list EpollAnswer)
    (sigread : option error) (dec : DecodeAnswer Msg) : Outcome (Result Msg) * Trace :=
  if isCancelled (cancel r) then (Returned ([], Some errCanceled), [])
  else
    match wait r answers with
    | (Blocked, tr) => (Blocked, tr)
    | (Returned (Some err), tr) =>
        if errors_Is err errCanceled then
          let tr' := (tr ++ [SysRead (cancelSignalReader r) 1])%list in
          match sigread with
          | Some readErr =>
              (Returned ([], Some (Errorf_w "reading cancel signal: " readErr)), tr')
          | None => (Returned ([], Some err), tr')
          end
        else (Returned ([], Some err), tr)
    | (Returned None, tr) =>
        let tr' := (tr ++ [SysDecode (file r)])%list in
        match dec with
        | DecodeErr err => (Returned ([], Some err), tr')
        | DecodeOk msg => (Returned ([msg], None), tr')
        end
    end.

Definition Cancel (r : t) (write : option error) : t * bool * Trace :=
  ({| file := file r;
      cancelSignalReader := cancelSignalReader r;
      cancelSignalWriter := cancelSignalWriter r;
      cancel := setCancelled (cancel r);
      epoll := epoll r |},
   match write with None => true | Some _ => false end,
   [SysWrite (cancelSignalWriter r) "c"]).

(** [closeE] answers [unix.Close(r.epoll)], [closeW] and [closeR] the two
    [Close] calls on the pipe. *)
Definition Close (r : t) (closeE closeW closeR : option error) : option error * Trace :=
  let errMsgs := [] in
  let errMsgs := note errMsgs "closing epoll: " closeE in
  let errMsgs := note errMsgs "closing cancel signal writer: " closeW in
  let errMsgs := note errMsgs "closing cancel signal reader: " closeR in
  (joinErrors errMsgs,
   [SysClose (epoll r); SysClose (cancelSignalWriter r);
    SysClose (cancelSignalReader r)]).

End Methods.

(** [n] waits in a row that a signal interrupted. *)
Definition EINTRs (n : nat) : list EpollAnswer := repeat (EpollErr 4) n.

End epollInputReader.

(** *** Notions of the statements below *)

(** The texts of the release steps that failed, in the order of the steps:
    what [Close] is to report. *)
Fixpoint failure_texts {P : Platform} (steps : list (string * option error)) : list string :=
  match steps with
  | [] => []
  | (what, Some e) :: rest => (what ++ Error e) :: failure_texts rest
  | (_, None) :: rest => failure_texts rest
  end.

(** [err == nil]. *)
Definition nil_error (err : option error) : bool :=
  match err with None => true | Some _ => false end.

(** ** boba.go: messages, commands, the program *)

Section Runtime.

(** The key type [ReadKey] yields, the application's model and the
    application's own messages. *)
Variables (Key Model UserMsg : Type).

(** [Msg] is [interface{}]; the loop tells three kinds apart.  A [Cmd] is a
    [func() Msg] or nil. *)
Inductive Msg : Type :=
| KeyMsg (k : Key)
| quitMsg
| batchMsg (cmds : list (option (unit -> Msg)))
| userMsg (u : UserMsg).

Definition Cmd : Type := option (unit -> Msg).

Definition Batch (cmds : list Cmd) : Cmd :=
  if (List.length cmds =? 0)%nat then None
  else Some (fun _ => batchMsg cmds).

Definition Quit (_ : unit) : Msg := quitMsg.

Record Program : Type := NewProgram {
  init : unit -> Model * Cmd;
  update : Msg -> Model -> Model * Cmd;
  view : Model -> string
}.

(** What a [go] statement of [Start] starts. *)
Inductive Goroutine : Type :=
| GoSendCmd (cmd : Cmd)      (* go func() { cmds <- cmd }() *)
| GoPump                     (* the ReadKey loop *)
| GoDispatcher.              (* the loop over done and cmds *)

(** What the goroutine of [Start] does, in program order. *)
Inductive Event : Type :=
| EvInitTerminal
| EvRestoreTerminal
| EvInit                                 (* p.init() *)
| EvGo (g : Goroutine)
| EvUpdate (msg : Msg) (model : Model)   (* p.update(msg, model) *)
| EvSendCmd (cmd : Cmd)                  (* cmds <- cmd *)
| EvClearLines (n : Z)                   (* termenv.ClearLines(n) *)
| EvWrite (text : string)                (* io.WriteString(os.Stdout, text) *)
| EvCloseDone.                           (* close(done) *)

(** [render]: the new [linesRendered] and what is sent to the terminal. *)
Definition render (p : Program) (model : Model) (linesRendered : Z) : Z * list Event :=
  let view := view p model in
  let view := strings.ReplaceAll view nl crnl in
  (Z.of_nat (strings.Count view crnl),
   ((if 0 <? linesRendered then [EvClearLines linesRendered] else [])
      ++ [EvWrite view])%list).

(** What the [select] of the main loop received. *)
Inductive Received : Type :=
| RecvErr (err : error)
| RecvMsg (msg : Msg).

(** After a turn the loop waits at its [select] again, or [Start] returns. *)
Inductive Next : Type :=
| Wait (model : Model) (linesRendered : Z)
| Exit (err : option error).

(** One turn of the main loop.  [restoreTerminal] is deferred: it runs on
    return. *)
Definition turn (p : Program) (model : Model) (linesRendered : Z) (x : Received)
  : list Event * Next :=
  match x with
  | RecvErr err => ([EvCloseDone; EvRestoreTerminal], Exit (Some err))
  | RecvMsg quitMsg => ([EvCloseDone; EvRestoreTerminal], Exit None)
  | RecvMsg (batchMsg batchedCmds) =>
      (List.map EvSendCmd batchedCmds, Wait model linesRendered)
  | RecvMsg msg =>
      let (model', cmd) := update p msg model in
      let (n, paint) := render p model' linesRendered in
      ((EvUpdate msg model :: EvSendCmd cmd :: paint)%list, Wait model' n)
  end.

(** [Start] up to its main loop.  [term] answers [initTerminal()]. *)
Definition start (p : Program) (term : option error) : list Event * Next :=
  match term with
  | Some err => ([EvInitTerminal], Exit (Some err))
  | None =>
      let (model, cmd) := init p tt in
      let (n, paint) := render p model 0 in
      ((EvInitTerminal :: EvInit
          :: (match cmd with Some _ => [EvGo (GoSendCmd cmd)] | None => [] end)
          ++ paint ++ [EvGo GoPump; EvGo GoDispatcher])%list,
       Wait model n)
  end.

(** *** The goroutines and their channels *)

(** A send the pump is blocked in.  [i] numbers the [ReadKey] call the
    value comes from (it is not in the program: it names the read in the
    statements below). *)
Inductive PumpOp : Type :=
| SendErr (i : nat) (err : error)     (* errs <- err *)
| SendMsg (i : nat) (msg : Msg).      (* msgs <- KeyMsg(msg) *)

(** One turn of the pump: the sends that follow [ReadKey]'s answer. *)
Definition pump_turn (i : nat) (answer : Key * option error) : list PumpOp :=
  let (msg, err) := answer in
  ((match err with Some e => [SendErr i e] | None => [] end)
     ++ [SendMsg i (KeyMsg msg)])%list.

(** What the dispatcher does with a received command: a goroutine that will
    send [cmd()] on [msgs], unless the command is nil. *)
Definition dispatch (cmd : Cmd) : list Msg :=
  match cmd with
  | Some f => [f tt]
  | None => []
  end.

Inductive DispState : Type := DispNotStarted | DispRunning | DispExited.

Record System : Type := {
  sys_ops : list Event;            (* main: what it still does before [sys_next] *)
  sys_next : Next;                 (* main: then waits at the select, or has returned *)
  sys_pump : option (list PumpOp); (* None: not started; Some []: about to call ReadKey *)
  sys_reads : list (Key * option error);   (* the answers ReadKey will give *)
  sys_nread : nat;                 (* ReadKey calls made *)
  sys_disp : DispState;
  sys_done : bool;                 (* done is closed *)
  sys_cmd_senders : list Cmd;      (* goroutines blocked in cmds <- cmd *)
  sys_msg_senders : list Msg       (* goroutines blocked in msgs <- cmd() *)
}.

Definition boot (p : Program) (term : option error) (reads : list (Key * option error))
  : System :=
  {| sys_ops := fst (start p term);
     sys_next := snd (start p term);
     sys_pump := None;
     sys_reads := reads;
     sys_nread := 0%nat;
     sys_disp := DispNotStarted;
     sys_done := false;
     sys_cmd_senders := [];
     sys_msg_senders := [] |}.

(** The scheduler's choice of the next step. *)
Inductive Choice : Type :=
| ChMain                 (* main does its next pending operation *)
| ChRecvPump             (* main receives what the pump is sending *)
| ChRecvCmd (n : nat)    (* main receives from the n-th goroutine blocked on msgs *)
| ChPumpRead             (* the pump calls ReadKey *)
| ChDispatch (n : nat)   (* the dispatcher receives from the n-th goroutine blocked on cmds *)
| ChDispExit.            (* the dispatcher sees done closed *)

(** What a step shows. *)
Inductive Label : Type :=
| LMain (e : Event)
| LRecvErr (i : nat) (err : error)
| LRecvPump (i : nat) (msg : Msg)
| LRecvCmd (msg : Msg)
| LRead (i : nat) (answer : Key * option error)
| LDispatch (cmd : Cmd)
| LDispExit.

Definition set_main (s : System) (m : list Event * Next) : System :=
  {| sys_ops := fst m; sys_next := snd m;
     sys_pump := sys_pump s; sys_reads := sys_reads s; sys_nread := sys_nread s;
     sys_disp := sys_disp s; sys_done := sys_done s;
     sys_cmd_senders := sys_cmd_senders s; sys_msg_senders := sys_msg_senders s |}.

Definition set_pump (s : System) (ops : option (list PumpOp)) : System :=
  {| sys_ops := sys_ops s; sys_next := sys_next s;
     sys_pump := ops; sys_reads := sys_reads s; sys_nread := sys_nread s;
     sys_disp := sys_disp s; sys_done := sys_done s;
     sys_cmd_senders := sys_cmd_senders s; sys_msg_senders := sys_msg_senders s |}.

Definition set_disp (s : System) (d : DispState) : System :=
  {| sys_ops := sys_ops s; sys_next := sys_next s;
     sys_pump := sys_pump s; sys_reads := sys_reads s; sys_nread := sys_nread s;
     sys_disp := d; sys_done := sys_done s;
     sys_cmd_senders := sys_cmd_senders s; sys_msg_senders := sys_msg_senders s |}.

Definition set_cmd_senders (s : System) (l : list Cmd) : System :=
  {| sys_ops := sys_ops s; sys_next := sys_next s;
     sys_pump := sys_pump s; sys_reads := sys_reads s; sys_nread := sys_nread s;
     sys_disp := sys_disp s; sys_done := sys_done s;
     sys_cmd_senders := l; sys_msg_senders := sys_msg_senders s |}.

Definition set_msg_senders (s : System) (l : list Msg) : System :=
  {| sys_ops := sys_ops s; sys_next := sys_next s;
     sys_pump := sys_pump s; sys_reads := sys_reads s; sys_nread := sys_nread s;
     sys_disp := sys_disp s; sys_done := sys_done s;
     sys_cmd_senders := sys_cmd_senders s; sys_msg_senders := l |}.

(** The list without its n-th element, and that element. *)
Fixpoint take_nth {A : Type} (n : nat) (l : list A) : option (A * list A) :=
  match l, n with
  | [], _ => None
  | x :: l', O => Some (x, l')
  | x :: l', S k =>
      match take_nth k l' with
      | Some (y, r) => Some (y, x :: r)
      | None => None
      end
  end.

(** Main does the operation [e]; [rest] is what it has left to do.  A send
    on [cmds] needs the dispatcher at its select. *)
Definition main_op (s : System) (e : Event) (rest : list Event) : option System :=
  let s := set_main s (rest, sys_next s) in
  match e with
  | EvSendCmd cmd =>
      match sys_disp s with
      | DispRunning => Some (set_msg_senders s (sys_msg_senders s ++ dispatch cmd)%list)
      | _ => None
      end
  | EvGo (GoSendCmd cmd) => Some (set_cmd_senders s (sys_cmd_senders s ++ [cmd])%list)
  | EvGo GoPump => Some (set_pump s (Some []))
  | EvGo GoDispatcher => Some (set_disp s DispRunning)
  | EvCloseDone =>
      Some {| sys_ops := sys_ops s; sys_next := sys_next s;
              sys_pump := sys_pump s; sys_reads := sys_reads s;
              sys_nread := sys_nread s;
              sys_disp := sys_disp s; sys_done := true;
              sys_cmd_senders := sys_cmd_senders s;
              sys_msg_senders := sys_msg_senders s |}
  | _ => Some s
  end.

(** One step of the system; [None] when the chosen step is not enabled. *)
Definition step (p : Program) (s : System) (c : Choice) : option (Label * System) :=
  match c with
  | ChMain =>
      match sys_ops s with
      | e :: rest =>
          match main_op s e rest with
          | Some s' => Some (LMain e, s')
          | None => None
          end
      | [] => None
      end
  | ChRecvPump =>
      match sys_ops s, sys_next s, sys_pump s with
      | [], Wait model linesRendered, Some (SendErr i err :: ops) =>
          Some (LRecvErr i err,
                set_main (set_pump s (Some ops)) (turn p model linesRendered (RecvErr err)))
      | [], Wait model linesRendered, Some (SendMsg i msg :: ops) =>
          Some (LRecvPump i msg,
                set_main (set_pump s (Some ops)) (turn p model linesRendered (RecvMsg msg)))
      | _, _, _ => None
      end
  | ChRecvCmd n =>
      match sys_ops s, sys_next s, take_nth n (sys_msg_senders s) with
      | [], Wait model linesRendered, Some (msg, others) =>
          Some (LRecvCmd msg,
                set_main (set_msg_senders s others) (turn p model linesRendered (RecvMsg msg)))
      | _, _, _ => None
      end
  | ChPumpRead =>
      match sys_pump s, sys_reads s with
      | Some [], answer :: reads =>
          Some (LRead (sys_nread s) answer,
                {| sys_ops := sys_ops s; sys_next := sys_next s;
                   sys_pump := Some (pump_turn (sys_nread s) answer);
                   sys_reads := reads; sys_nread := S (sys_nread s);
                   sys_disp := sys_disp s; sys_done := sys_done s;
                   sys_cmd_senders := sys_cmd_senders s;
                   sys_msg_senders := sys_msg_senders s |})
      | _, _ => None
      end
  | ChDispatch n =>
      match sys_disp s, take_nth n (sys_cmd_senders s) with
      | DispRunning, Some (cmd, others) =>
          Some (LDispatch cmd,
                set_msg_senders (set_cmd_senders s others)
                  (sys_msg_senders s ++ dispatch cmd)%list)
      | _, _ => None
      end
  | ChDispExit =>
      match sys_disp s, sys_done s with
      | DispRunning, true => Some (LDispExit, set_disp s DispExited)
      | _, _ => None
      end
  end.

(** A run under a schedule: the labels shown and the state reached. *)
Fixpoint run (p : Program) (s : System) (schedule : list Choice)
  : option (list Label * System) :=
  match schedule with
  | [] => Some ([], s)
  | c :: cs =>
      match step p s c with
      | Some (l, s') =>
          match run p s' cs with
          | Some (ls, s'') => Some (l :: ls, s'')
          | None => None
          end
      | None => None
      end
  end.

(** *** Predicates of the statements below *)

(** A message the loop hands to [Update]: neither quit nor batch. *)
Definition ordinary (msg : Msg) : Prop :=
  match msg with
  | quitMsg | batchMsg _ => False
  | _ => True
  end.

(** The two operations of a returning [Start]. *)
Definition closing (e : Event) : Prop :=
  match e with
  | EvCloseDone | EvRestoreTerminal => True
  | _ => False
  end.

(** Steps in which main neither receives nor does anything but close. *)
Definition quiet (l : Label) : Prop :=
  match l with
  | LMain e => closing e
  | LRecvErr _ _ | LRecvPump _ _ | LRecvCmd _ => False
  | _ => True
  end.

(** The reads whose message main received from the pump. *)
Fixpoint pump_recvs (ls : list Label) : list nat :=
  match ls with
  | [] => []
  | LRecvPump i _ :: ls' => i :: pump_recvs ls'
  | _ :: ls' => pump_recvs ls'
  end.

(** Main has returned. *)
Definition returned (s : System) (err : option error) : Prop :=
  sys_ops s = [] /\ sys_next s = Exit err.

(** [done] is closed, or main is about to close it. *)
Definition stopping (s : System) : Prop :=
  sys_done s = true \/ In EvCloseDone (sys_ops s).

(** [Start] is returning [err]: only closing operations are left, the close
    of [done] among them unless it is closed already. *)
Definition winding (err : option error) (s : System) : Prop :=
  sys_next s = Exit err /\ Forall closing (sys_ops s) /\ stopping s.

(** *** The invariant of the pump *)

(** What the pump may be blocked in, given all the answers of [ReadKey],
    the number of calls made and what main does next: the message of a
    read that succeeded; the error of a read that failed and, behind it,
    that read's message; or, with main returning that error, the message
    of the failed read alone. *)
Definition pump_ok (allreads : list (Key * option error)) (nread : nat) (next : Next)
    (ops : list PumpOp) : Prop :=
  match ops with
  | [] => True
  | [SendMsg i m] =>
      S i = nread /\
      exists k, m = KeyMsg k /\
        (nth_error allreads i = Some (k, None) \/
         exists e, nth_error allreads i = Some (k, Some e) /\ next = Exit (Some e))
  | [SendErr i e; SendMsg j m] =>
      S i = nread /\ j = i /\
      exists k, m = KeyMsg k /\ nth_error allreads i = Some (k, Some e)
  | _ => False
  end.

Definition Inv (allreads : list (Key * option error)) (s : System) : Prop :=
  sys_reads s = skipn (sys_nread s) allreads
  /\ match sys_pump s with
     | Some ops => pump_ok allreads (sys_nread s) (sys_next s) ops
     | None => True
     end.

(** No read below [bound s] can still be received from the pump. *)
Definition bound (s : System) : nat :=
  match sys_pump s with
  | Some (_ :: _) => pred (sys_nread s)
  | _ => sys_nread s
  end.

(** What a receiving step of main guarantees. *)
Definition received_ok (allreads : list (Key * option error)) (s s' : System)
    (l : Label) : Prop :=
  match l with
  | LRecvPump i m =>
      (exists k, nth_error allreads i = Some (k, None) /\ m = KeyMsg k)
      /\ (bound s <= i < bound s')%nat
  | LRecvErr i e =>
      (exists k, nth_error allreads i = Some (k, Some e))
      /\ sys_ops s' = [EvCloseDone; EvRestoreTerminal]
      /\ sys_next s' = Exit (Some e)
  | _ => True
  end.

End Runtime.

Arguments KeyMsg {Key UserMsg} k.
Arguments quitMsg {Key UserMsg}.
Arguments batchMsg {Key UserMsg} cmds.
Arguments userMsg {Key UserMsg} u.
Arguments Batch {Key UserMsg} cmds.
Arguments Quit {Key UserMsg} _.
Arguments NewProgram {Key Model UserMsg} init update view.
Arguments init {Key Model UserMsg} p _.
Arguments update {Key Model UserMsg} p _ _.
Arguments view {Key Model UserMsg} p _.
Arguments GoSendCmd {Key UserMsg} cmd.
Arguments GoPump {Key UserMsg}.
Arguments GoDispatcher {Key UserMsg}.
Arguments EvInitTerminal {Key Model UserMsg}.
Arguments EvRestoreTerminal {Key Model UserMsg}.
Arguments EvInit {Key Model UserMsg}.
Arguments EvGo {Key Model UserMsg} g.
Arguments EvUpdate {Key Model UserMsg} msg model.
Arguments EvSendCmd {Key Model UserMsg} cmd.
Arguments EvClearLines {Key Model UserMsg} n.
Arguments EvWrite {Key Model UserMsg} text.
Arguments EvCloseDone {Key Model UserMsg}.
Arguments render {Key Model UserMsg} p model linesRendered.
Arguments RecvErr {Key UserMsg} err.
Arguments RecvMsg {Key UserMsg} msg.
Arguments Wait {Model} model linesRendered.
Arguments Exit {Model} err.
Arguments turn {Key Model UserMsg} p model linesRendered x.
Arguments start {Key Model UserMsg} p term.
Arguments SendErr {Key UserMsg} i err.
Arguments SendMsg {Key UserMsg} i msg.
Arguments pump_turn {Key UserMsg} i answer.
Arguments dispatch {Key UserMsg} cmd.
Arguments sys_ops {Key Model UserMsg} s.
Arguments sys_next {Key Model UserMsg} s.
Arguments sys_pump {Key Model UserMsg} s.
Arguments sys_reads {Key Model UserMsg} s.
Arguments sys_nread {Key Model UserMsg} s.
Arguments sys_disp {Key Model UserMsg} s.
Arguments sys_done {Key Model UserMsg} s.
Arguments sys_cmd_senders {Key Model UserMsg} s.
Arguments sys_msg_senders {Key Model UserMsg} s.
Arguments boot {Key Model UserMsg} p term reads.
Arguments LMain {Key Model UserMsg} e.
Arguments LRecvErr {Key Model UserMsg} i err.
Arguments LRecvPump {Key Model UserMsg} i msg.
Arguments LRecvCmd {Key Model UserMsg} msg.
Arguments LRead {Key Model UserMsg} i answer.
Arguments LDispatch {Key Model UserMsg} cmd.
Arguments LDispExit {Key Model UserMsg}.
Arguments set_main {Key Model UserMsg} s m.
Arguments set_pump {Key Model UserMsg} s ops.
Arguments set_disp {Key Model UserMsg} s d.
Arguments set_cmd_senders {Key Model UserMsg} s l.
Arguments set_msg_senders {Key Model UserMsg} s l.
Arguments main_op {Key Model UserMsg} s e rest.
Arguments step {Key Model UserMsg} p s c.
Arguments run {Key Model UserMsg} p s schedule.
Arguments ordinary {Key UserMsg} msg.
Arguments closing {Key Model UserMsg} e.
Arguments quiet {Key Model UserMsg} l.
Arguments pump_recvs {Key Model UserMsg} ls.
Arguments returned {Key Model UserMsg} s err.
Arguments stopping {Key Model UserMsg} s.
Arguments winding {Key Model UserMsg} err s.
Arguments pump_ok {Key Model UserMsg} allreads nread next ops.
Arguments Inv {Key Model UserMsg} allreads s.
Arguments bound {Key Model UserMsg} s.
Arguments received_ok {Key Model UserMsg} allreads s s' l.
Arguments DecodeOk {Msg} m.

(** ** A program to run the statements on *)

Module Sample.

(** Keys and models are numbers; every update counts one up and asks for
    no command; the view is one line. *)
Definition prog : Program nat nat unit :=
  NewProgram (fun _ => (0%nat, None)) (fun _ model => (S model, None))
             (fun _ => String "x" nl).

(** One key, then a failing read. *)
Definition reads : list (nat * option error) :=
  [(1%nat, None); (0%nat, Some (errorString "EOF"))].

(** The platform: a ceiling of 1024 descriptors, texts for the errors, and
    format strings without verbs. *)
#[global] Instance platform : Platform :=
  {| FD_SETSIZE := 1024;
     errCanceled_text := "read cancelled";
     errno_text := fun n => "errno " ++ itoa n;
     Sprintf0 := fun format => format |}.

(** Standard input and a signal pipe on descriptors 3 and 4. *)
Definition sel : selectInputReader.t :=
  {| selectInputReader.file := 0;
     selectInputReader.cancelSignalReader := 3;
     selectInputReader.cancelSignalWriter := 4;
     selectInputReader.cancel := notCancelled |}.

(** The same with the pipe on descriptors 1024 and 1025. *)
Definition sel_high : selectInputReader.t :=
  {| selectInputReader.file := 0;
     selectInputReader.cancelSignalReader := 1024;
     selectInputReader.cancelSignalWriter := 1025;
     selectInputReader.cancel := notCancelled |}.

Definition ep : epollInputReader.t :=
  {| epollInputReader.file := 0;
     epollInputReader.cancelSignalReader := 3;
     epollInputReader.cancelSignalWriter := 4;
     epollInputReader.cancel := notCancelled;
     epollInputReader.epoll := 5 |}.

(** Main at its select, the dispatcher running, and a command goroutine
    about to deliver [msg]. *)
Definition delivering (msg : Msg nat unit) : System nat nat unit :=
  {| sys_ops := []; sys_next := Wait 0%nat 1;
     sys_pump := Some []; sys_reads := []; sys_nread := 0%nat;
     sys_disp := DispRunning; sys_done := false;
     sys_cmd_senders := []; sys_msg_senders := [msg] |}.

(** [Start] up to its select, the key received and handled, the error
    received, [done] closed. *)
Definition schedule : list Choice :=
  [ChMain; ChMain; ChMain; ChMain; ChMain; ChPumpRead; ChRecvPump;
   ChMain; ChMain; ChMain; ChMain; ChPumpRead; ChRecvPump; ChMain].

End Sample.
Arguments DecodeErr {Msg} e.

(** ** inputreader_linux.go: the constructor *)

(** The calls [newInputReader] makes to set the reader up. *)
Inductive SetupCall : Type :=
| CallEpollCreate1 (flags : Z)
| CallPipe
| CallEpollCtlAdd (epfd fd : Z) (events : Z) (tag : Z).   (* EPOLL_CTL_ADD, Events, Fd *)

(** [unix.EpollCreate1]. *)
Inductive CreateAnswer : Type :=
| CreateOk (epfd : Z)
| CreateErr (errno : Z).

(** [unix.EPOLLIN]. *)
Definition EPOLLIN : Z := 1.

(** What [newInputReader] returns: its own reader, whatever
    [newFallbackInputReader(reader)] returns, or [nil, err]. *)
Inductive EpollConstructed : Type :=
| UseEpoll (r : epollInputReader.t)
| EpollFallback (reader : ioReader)
| EpollConstructErr (e : error).

(** [create] answers [EpollCreate1], [pipe] answers [os.Pipe()], [ctlFile]
    and [ctlSignal] the two [EpollCtl] calls (an errno, or none). *)
Definition newInputReader {P : Platform} (reader : ioReader) (create : CreateAnswer)
    (pipe : PipeAnswer) (ctlFile ctlSignal : option Z)
  : EpollConstructed * list SetupCall :=
  match reader with
  | otherReader => (EpollFallback reader, [])
  | osFile fd =>
      match create with
      | CreateErr n =>
          (EpollConstructErr (Errorf_w "create epoll: " (Errno n)), [CallEpollCreate1 0])
      | CreateOk epoll =>
          match pipe with
          | PipeErr err => (EpollConstructErr err, [CallEpollCreate1 0; CallPipe])
          | PipeOk r w =>
              let addFile := CallEpollCtlAdd epoll (to_int fd) EPOLLIN (to_int32 fd) in
              let addSignal := CallEpollCtlAdd epoll (to_int r) EPOLLIN (to_int32 r) in
              match ctlFile with
              | Some _ =>
                  (EpollConstructErr (errorString "add reader to epoll interrest list"),
                   [CallEpollCreate1 0; CallPipe; addFile])
              | None =>
                  match ctlSignal with
                  | Some _ =>
                      (EpollConstructErr (errorString "add reader to epoll interrest list"),
                       [CallEpollCreate1 0; CallPipe; addFile; addSignal])
                  | None =>
                      (UseEpoll {| epollInputReader.file := fd;
                                   epollInputReader.cancelSignalReader := r;
                                   epollInputReader.cancelSignalWriter := w;
                                   epollInputReader.cancel := notCancelled;
                                   epollInputReader.epoll := epoll |},
                       [CallEpollCreate1 0; CallPipe; addFile; addSignal])
                  end
              end
          end
      end
  end.


(** ** Notions of the further statements on [Start] *)

Section RuntimeNotions.

Variables (Key Model UserMsg : Type).

(** The model after the messages main received, in the order of receipt:
    [Update] applied for each ordinary message, nothing for a batch. *)
Fixpoint apply_received (p : Program Key Model UserMsg)
    (ls : list (Label Key Model UserMsg)) (model : Model) : Model :=
  match ls with
  | [] => model
  | l :: ls' =>
      apply_received p ls'
        match l with
        | LRecvPump _ msg | LRecvCmd msg =>
            match msg with
            | quitMsg | batchMsg _ => model
            | _ => fst (update p msg model)
            end
        | _ => model
        end
  end.

(** The number of [go] statements for the pump among operations. *)
Fixpoint pump_starts (ops : list (Event Key Model UserMsg)) : nat :=
  match ops with
  | [] => 0
  | EvGo GoPump :: ops' => S (pump_starts ops')
  | _ :: ops' => pump_starts ops'
  end.

(** The pump is started at most once. *)
Definition pump_once (s : System Key Model UserMsg) : Prop :=
  match sys_pump s with
  | None => (pump_starts (sys_ops s) <= 1)%nat
  | Some _ => pump_starts (sys_ops s) = 0%nat
  end.

(** The pump is blocked for good: in the send of an error, with the send of
    that read's message behind it, or in the send of a message while
    [Start] is returning. *)
Definition pump_stuck (s : System Key Model UserMsg) : Prop :=
  match sys_pump s with
  | Some [SendErr _ _; SendMsg _ _] => True
  | Some [SendMsg _ _] => exists err, sys_next s = Exit err
  | _ => False
  end.

Definition is_read (l : Label Key Model UserMsg) : Prop :=
  match l with LRead _ _ => True | _ => False end.

(** Operations that are no send on [cmds]. *)
Definition no_send (e : Event Key Model UserMsg) : Prop :=
  match e with EvSendCmd _ => False | _ => True end.

(** Operations of a [Start] that returns. *)
Definition leaving (e : Event Key Model UserMsg) : Prop :=
  match e with
  | EvCloseDone | EvRestoreTerminal | EvInitTerminal => True
  | _ => False
  end.

(** How main, [done] and the dispatcher stand to each other. *)
Definition dispatcher_ready (s : System Key Model UserMsg) : Prop :=
  match sys_next s with
  | Wait _ _ => ~ In EvCloseDone (sys_ops s) /\ sys_done s = false
  | Exit _ => Forall leaving (sys_ops s)
  end
  /\ (sys_disp s = DispExited -> sys_done s = true)
  /\ (sys_disp s = DispNotStarted ->
      (exists err, sys_next s = Exit err)
      \/ (In (EvGo GoDispatcher) (sys_ops s) /\ Forall no_send (sys_ops s))).

End RuntimeNotions.

Arguments apply_received {Key Model UserMsg} p ls model.
Arguments pump_starts {Key Model UserMsg} ops.
Arguments pump_once {Key Model UserMsg} s.
Arguments pump_stuck {Key Model UserMsg} s.
Arguments is_read {Key Model UserMsg} l.
Arguments no_send {Key Model UserMsg} e.
Arguments leaving {Key Model UserMsg} e.
Arguments dispatcher_ready {Key Model UserMsg} s.

(** ** What [render] writes *)

(** No line feed without a carriage return right before it.  [after_CR]
    tells whether the byte before [s] is a carriage return. *)
Fixpoint no_bare_LF (after_CR : bool) (s : string) : bool :=
  match s with
  | EmptyString => true
  | String c s' =>
      (if Ascii.eqb c LF then after_CR else true) && no_bare_LF (Ascii.eqb c CR) s'
  end.

(** ** boba.go: the timer commands *)

(** Go's [time] package, as far as [Every] uses it.  A time is a count of
    nanoseconds since the zero time, a duration a count of nanoseconds. *)
Module time.

(** [t.Truncate(d)]: [t] rounded down to a multiple of [d] since the zero
    time; [t] itself when [d] is not positive. *)
Definition Truncate (t d : Z) : Z := if d <=? 0 then t else t - t mod d.

Definition Add (t d : Z) : Z := t + d.

Definition Sub (t u : Z) : Z := t - u.

End time.

Section Timers.

Variable Msg : Type.

(** The body of the command [Every(duration, fn)] returns.  [n] answers
    [time.Now()]; [fire d] is the time that the timer of duration [d]
    delivers on its channel.  The result is the duration of the timer and
    the message returned. *)
Definition Every (duration : Z) (fn : Z -> Msg) (n : Z) (fire : Z -> Z) : Z * Msg :=
  let d := time.Sub (time.Add (time.Truncate n duration) duration) n in
  (d, fn (fire d)).

(** The body of the command [Tick(d, fn)] returns. *)
Definition Tick (d : Z) (fn : Z -> Msg) (fire : Z -> Z) : Z * Msg :=
  (d, fn (fire d)).

End Timers.

Arguments Every {Msg} duration fn n fire.
Arguments Tick {Msg} d fn fire.

(** ** examples/textinputs/main.go *)

Module textinputs.

(** [input.Model]: the three fields the example assigns, and the rest. *)
Record input_Model (InputRest : Type) : Type := {
  Placeholder : string;
  Prompt : string;
  TextColor : string;
  input_rest : InputRest
}.
Arguments Placeholder {InputRest} _.
Arguments Prompt {InputRest} _.
Arguments TextColor {InputRest} _.
Arguments input_rest {InputRest} _.

(** What the example takes from other packages: the key type of
    [boba.KeyMsg] with its [String] method, the [textinput] package, and the
    three texts that [termenv] colours at start-up. *)
Class Imports (Key UserMsg InputRest : Type) : Type := {
  KeyString : Key -> string;
  input_NewModel : input_Model InputRest;
  input_Focus : input_Model InputRest -> input_Model InputRest;
  input_Blur : input_Model InputRest -> input_Model InputRest;
  input_Update :
    Msg Key UserMsg -> input_Model InputRest -> input_Model InputRest * Cmd Key UserMsg;
  input_View : input_Model InputRest -> string;
  input_Blink : input_Model InputRest -> Cmd Key UserMsg;
  focusedPrompt : string;
  focusedSubmitButton : string;
  blurredSubmitButton : string
}.

Record Model (InputRest : Type) : Type := {
  index : Z;
  nameInput : input_Model InputRest;
  nickNameInput : input_Model InputRest;
  emailInput : input_Model InputRest;
  submitButton : string
}.
Arguments index {InputRest} _.
Arguments nameInput {InputRest} _.
Arguments nickNameInput {InputRest} _.
Arguments emailInput {InputRest} _.
Arguments submitButton {InputRest} _.

Section Example.

Context {Key UserMsg InputRest : Type} {I : Imports Key UserMsg InputRest}.

Local Abbreviation input_Model := (input_Model InputRest).
Local Abbreviation Model := (Model InputRest).

Definition focusedText : string := "205".
Definition blurredPrompt : string := "> ".

Definition set_Placeholder (x : input_Model) (v : string) : input_Model :=
  {| Placeholder := v; Prompt := Prompt x; TextColor := TextColor x;
     input_rest := input_rest x |}.

Definition set_Prompt (x : input_Model) (v : string) : input_Model :=
  {| Placeholder := Placeholder x; Prompt := v; TextColor := TextColor x;
     input_rest := input_rest x |}.

Definition set_TextColor (x : input_Model) (v : string) : input_Model :=
  {| Placeholder := Placeholder x; Prompt := Prompt x; TextColor := v;
     input_rest := input_rest x |}.

Definition initialize (_ : unit) : Model * Cmd Key UserMsg :=
  let name := input_NewModel in
  let name := set_Placeholder name "Name" in
  let name := input_Focus name in
  let name := set_Prompt name focusedPrompt in
  let name := set_TextColor name focusedText in
  let nickName := input_NewModel in
  let nickName := set_Placeholder nickName "Nickname" in
  let nickName := set_Prompt nickName blurredPrompt in
  let email := input_NewModel in
  let email := set_Placeholder email "Email" in
  let email := set_Prompt email blurredPrompt in
  ({| index := 0; nameInput := name; nickNameInput := nickName;
      emailInput := email; submitButton := blurredSubmitButton |},
   Batch [input_Blink name; input_Blink nickName; input_Blink email]).

Definition updateInputs (msg : Msg Key UserMsg) (m : Model) : Model * Cmd Key UserMsg :=
  let cmds := [] in
  let (name, cmd) := input_Update msg (nameInput m) in
  let cmds := (cmds ++ [cmd])%list in
  let (nickName, cmd) := input_Update msg (nickNameInput m) in
  let cmds := (cmds ++ [cmd])%list in
  let (email, cmd) := input_Update msg (emailInput m) in
  let cmds := (cmds ++ [cmd])%list in
  ({| index := index m; nameInput := name; nickNameInput := nickName;
      emailInput := email; submitButton := submitButton m |},
   Batch cmds).

(** The loop over the inputs: the one at [idx] focused, the others
    blurred. *)
Fixpoint restyle (idx : Z) (i : Z) (inputs : list input_Model) : list input_Model :=
  match inputs with
  | [] => []
  | x :: rest =>
      (if i =? idx
       then set_TextColor (set_Prompt (input_Focus x) focusedPrompt) focusedText
       else set_TextColor (set_Prompt (input_Blur x) blurredPrompt) "")
        :: restyle idx (i + 1) rest
  end.

(** The keys that move the focus. *)
Definition cycles (s : string) : bool :=
  String.eqb s "tab" || String.eqb s "shift+tab" || String.eqb s "enter"
  || String.eqb s "up" || String.eqb s "down".

Definition update (msg : Msg Key UserMsg) (m : Model) : Model * Cmd Key UserMsg :=
  match msg with
  | KeyMsg k =>
      let s := KeyString k in
      if String.eqb s "ctrl+c" then (m, Some Quit)
      else if cycles s then
        let inputs := [nameInput m; nickNameInput m; emailInput m] in
        let len := Z.of_nat (List.length inputs) in
        if String.eqb s "enter" && (index m =? len) then (m, Some Quit)
        else
          let idx :=
            if String.eqb s "up" || String.eqb s "shift+tab"
            then to_int (index m - 1) else to_int (index m + 1) in
          let idx := if len <? idx then 0 else if idx <? 0 then len else idx in
          let inputs := restyle idx 0 inputs in
          ({| index := idx;
              nameInput := nth 0 inputs (nameInput m);
              nickNameInput := nth 1 inputs (nickNameInput m);
              emailInput := nth 2 inputs (emailInput m);
              submitButton := if idx =? len then focusedSubmitButton
                              else blurredSubmitButton |},
           None)
      else updateInputs msg m
  | _ => updateInputs msg m
  end.

(** The loop of [view]: the inputs, a line feed between two of them. *)
Fixpoint lines_of (inputs : list string) : string :=
  match inputs with
  | [] => ""
  | [x] => x
  | x :: rest => x ++ nl ++ lines_of rest
  end.

Definition view (m : Model) : string :=
  let s := nl in
  let inputs := [input_View (nameInput m); input_View (nickNameInput m);
                 input_View (emailInput m)] in
  let s := s ++ lines_of inputs in
  s ++ nl ++ nl ++ submitButton m ++ nl.

(** [boba.NewProgram(initialize, update, view)]. *)
Definition program : Program Key Model UserMsg := NewProgram initialize update view.

(** The styling that goes with the focus at [idx]. *)
Definition styled (idx : Z) (m : Model) : Prop :=
  index m = idx
  /\ Prompt (nameInput m) = (if 0 =? idx then focusedPrompt else blurredPrompt)
  /\ Prompt (nickNameInput m) = (if 1 =? idx then focusedPrompt else blurredPrompt)
  /\ Prompt (emailInput m) = (if 2 =? idx then focusedPrompt else blurredPrompt)
  /\ submitButton m = (if idx =? 3 then focusedSubmitButton else blurredSubmitButton).

(** Keys that move the focus back, and keys that move it on. *)
Definition backward (s : string) : bool :=
  String.eqb s "up" || String.eqb s "shift+tab".

Definition forward (s : string) : bool :=
  String.eqb s "tab" || String.eqb s "enter" || String.eqb s "down".

(** A message for the inputs: not a key that quits or moves the focus. *)
Definition for_inputs (msg : Msg Key UserMsg) : Prop :=
  match msg with
  | KeyMsg k => KeyString k <> "ctrl+c" /\ cycles (KeyString k) = false
  | _ => True
  end.

(** The index after a key that moves the focus. *)
Definition moved (s : string) (idx : Z) : Z :=
  let i := if backward s then to_int (idx - 1) else to_int (idx + 1) in
  if 3 <? i then 0 else if i <? 0 then 3 else i.

End Example.

End textinputs.

(** ** More to run the statements on *)

Module Demo.

(** The example with keys named by their text, inputs that only know
    whether they are focused, whose update changes nothing and asks for
    nothing, and whose view is the prompt and the placeholder. *)
#[global] Instance imports : textinputs.Imports string unit bool :=
  {| textinputs.KeyString := fun k => k;
     textinputs.input_NewModel :=
       {| textinputs.Placeholder := ""; textinputs.Prompt := "> ";
          textinputs.TextColor := ""; textinputs.input_rest := false |};
     textinputs.input_Focus := fun x =>
       {| textinputs.Placeholder := textinputs.Placeholder x;
          textinputs.Prompt := textinputs.Prompt x;
          textinputs.TextColor := textinputs.TextColor x;
          textinputs.input_rest := true |};
     textinputs.input_Blur := fun x =>
       {| textinputs.Placeholder := textinputs.Placeholder x;
          textinputs.Prompt := textinputs.Prompt x;
          textinputs.TextColor := textinputs.TextColor x;
          textinputs.input_rest := false |};
     textinputs.input_Update := fun _ x => (x, None);
     textinputs.input_View := fun x =>
       textinputs.Prompt x ++ textinputs.Placeholder x;
     textinputs.input_Blink := fun _ => None;
     textinputs.focusedPrompt := "* ";
     textinputs.focusedSubmitButton := "[*Submit*]";
     textinputs.blurredSubmitButton := "[ Submit ]" |}.

(** The example's first model. *)
Definition start_model : textinputs.Model bool := fst (textinputs.initialize tt).

(** The same with the focus on the submit button. *)
Definition on_button : textinputs.Model bool :=
  {| textinputs.index := 3;
     textinputs.nameInput := textinputs.nameInput start_model;
     textinputs.nickNameInput := textinputs.nickNameInput start_model;
     textinputs.emailInput := textinputs.emailInput start_model;
     textinputs.submitButton := "[*Submit*]" |}.

(** A program whose view has no line feed. *)
Definition one_liner : Program nat nat unit :=
  NewProgram (fun _ => (0%nat, None)) (fun _ model => (S model, None))
             (fun _ => "ready").

(** Main at its select, the dispatcher running, and a goroutine about to
    send [cmd] on [cmds]. *)
Definition dispatching (cmd : Cmd nat unit) : System nat nat unit :=
  {| sys_ops := []; sys_next := Wait 0%nat 1;
     sys_pump := Some []; sys_reads := []; sys_nread := 0%nat;
     sys_disp := DispRunning; sys_done := false;
     sys_cmd_senders := [cmd]; sys_msg_senders := [] |}.

(** [Start] of the sample program up to its select and through one key. *)
Definition one_key : list Choice :=
  [ChMain; ChMain; ChMain; ChMain; ChMain; ChPumpRead; ChRecvPump;
   ChMain; ChMain; ChMain; ChMain].

(** The same up to the send of the command that [Update] returned. *)
Definition before_send : list Choice :=
  [ChMain; ChMain; ChMain; ChMain; ChMain; ChPumpRead; ChRecvPump; ChMain].

(** 12:34:20 on the first day, and a minute, in nanoseconds. *)
Definition second : Z := 1000000000.
Definition minute : Z := 60 * second.
Definition at_12_34_20 : Z := ((12 * 60 + 34) * 60 + 20) * second.

End Demo.

(** * Properties *)

(** ** Line endings and line counts *)

Section Lines.

Lemma ReplaceAll_cons (c : ascii) (s : string) :
  strings.ReplaceAll (String c s) nl crnl =
  if Ascii.eqb c LF then String CR (String LF (strings.ReplaceAll s nl crnl))
  else String c (strings.ReplaceAll s nl crnl).
Proof.
  unfold strings.ReplaceAll. cbn [strings.Replace_from nl strings.HasPrefix].
  rewrite andb_true_r, (Ascii.eqb_sym LF c).
  destruct (Ascii.eqb c LF); reflexivity.
Qed.

(** The normalized text never starts with a bare line feed. *)
Lemma ReplaceAll_head (s : string) (d : ascii) (t : string) :
  strings.ReplaceAll s nl crnl = String d t -> Ascii.eqb d LF = false.
Proof.
  destruct s as [|c s]; [discriminate|].
  rewrite ReplaceAll_cons. destruct (Ascii.eqb c LF) eqn:E; intros H.
  - injection H as <- _. reflexivity.
  - injection H as <- _. exact E.
Qed.

Lemma Count_crnl (s : string) :
  strings.Count (String CR (String LF s)) crnl = S (strings.Count s crnl).
Proof. reflexivity. Qed.

Lemma Count_cons_other (c : ascii) (s : string) :
  Ascii.eqb c CR = false ->
  strings.Count (String c s) crnl = strings.Count s crnl.
Proof.
  intros H. unfold strings.Count. cbn [strings.Count_from crnl strings.HasPrefix].
  rewrite (Ascii.eqb_sym CR c), H. reflexivity.
Qed.

Lemma Count_cons_CR (s : string) :
  match s with String d _ => Ascii.eqb d LF = false | EmptyString => True end ->
  strings.Count (String CR s) crnl = strings.Count s crnl.
Proof.
  intros H. unfold strings.Count. cbn [strings.Count_from crnl strings.HasPrefix].
  destruct s as [|d s]; [reflexivity|].
  cbn [strings.HasPrefix]. rewrite (Ascii.eqb_sym LF d), H. reflexivity.
Qed.

(** Each line feed of the view becomes one CR LF, and nothing else does. *)
Lemma Count_ReplaceAll (s : string) :
  strings.Count (strings.ReplaceAll s nl crnl) crnl = newlines s.
Proof.
  induction s as [|c s IH]; [reflexivity|].
  rewrite ReplaceAll_cons. cbn [newlines].
  destruct (Ascii.eqb c LF) eqn:E.
  - rewrite Count_crnl, IH. reflexivity.
  - destruct (Ascii.eqb c CR) eqn:E'.
    + apply Ascii.eqb_eq in E'. subst c.
      rewrite Count_cons_CR, IH; [reflexivity|].
      destruct (strings.ReplaceAll s nl crnl) as [|d t] eqn:R; [exact I|].
      exact (ReplaceAll_head _ _ _ R).
    + rewrite Count_cons_other, IH by exact E'. reflexivity.
Qed.

End Lines.

(** ** The renderer and the command constructors *)

Section RuntimeTurn.

Variables (Key Model UserMsg : Type).
Implicit Types (p : Program Key Model UserMsg) (model : Model).
Implicit Types (msg : Msg Key UserMsg) (cmd : Cmd Key UserMsg).

(** C6.  A repaint with recorded count [N] writes the view with every line
    feed turned into CR LF, erases exactly [N] lines first when [N] is
    positive and nothing when it is zero, and records the number of lines
    just written; the next repaint erases exactly that many. *)
Theorem render_repaint p model model' (N : Z) :
  let text := strings.ReplaceAll (view p model) nl crnl in
  let written := Z.of_nat (strings.Count text crnl) in
  snd (render p model N)
    = ((if 0 <? N then [EvClearLines N] else []) ++ [EvWrite text])%list
  /\ snd (render p model 0) = [EvWrite text]
  /\ fst (render p model N) = written
  /\ strings.Count text crnl = newlines (view p model)
  /\ snd (render p model' (fst (render p model N)))
     = ((if 0 <? written then [EvClearLines written] else [])
          ++ [EvWrite (strings.ReplaceAll (view p model') nl crnl)])%list.
Proof.
  cbn zeta. unfold render. cbn [fst snd].
  rewrite Count_ReplaceAll. repeat split.
Qed.

(** A repaint after a view of three lines erases exactly three lines
    before it writes the new view of one line. *)
Example repaint_three_then_one (model : Model) (N : Z) :
  let p3 := NewProgram (Key:=Key) (UserMsg:=UserMsg)
              (fun _ => (model, None)) (fun _ m => (m, None))
              (fun _ => String "a" (nl ++ String "b" (nl ++ String "c" nl))) in
  let p1 := NewProgram (Key:=Key) (UserMsg:=UserMsg)
              (fun _ => (model, None)) (fun _ m => (m, None))
              (fun _ => String "z" nl) in
  snd (render p1 model (fst (render p3 model N)))
  = [EvClearLines 3; EvWrite (String "z" crnl)]
  /\ fst (render p1 model (fst (render p3 model N))) = 1.
Proof. split; reflexivity. Qed.

(** C10.  [Batch] of no command is the nil command; [Batch] of at least one
    command is a command whose message is the batch of exactly the given
    commands, in the given order. *)
Theorem Batch_spec :
  Batch (Key:=Key) (UserMsg:=UserMsg) [] = None
  /\ forall cmd (cmds : list (Cmd Key UserMsg)),
       exists f, Batch (cmd :: cmds) = Some f /\ f tt = batchMsg (cmd :: cmds).
Proof.
  split; [reflexivity|].
  intros cmd cmds. eexists. split; reflexivity.
Qed.

End RuntimeTurn.

(** ** The goroutines of [Start] *)

Section Goroutines.
Variables (Key Model UserMsg : Type).
Implicit Types (p : Program Key Model UserMsg) (s : System Key Model UserMsg).
Implicit Types (allreads : list (Key * option error)).

Lemma main_op_fields s e rest s' :
  main_op s e rest = Some s' ->
  sys_ops s' = rest /\ sys_next s' = sys_next s
  /\ sys_reads s' = sys_reads s /\ sys_nread s' = sys_nread s
  /\ (sys_pump s' = sys_pump s \/ sys_pump s' = Some []).
Proof.
  unfold main_op. destruct e as [ | | | [c| | ] | | c | | | ]; cbn;
    try (intros [= <-]; cbn; auto 6).
  destruct (sys_disp s); try discriminate. intros [= <-]; cbn; auto 6.
Qed.

Lemma Inv_boot p term allreads : Inv allreads (boot p term allreads).
Proof. split; cbn; auto. Qed.

Lemma skipn_cons_nth {A : Type} (n : nat) (l : list A) (a : A) (r : list A) :
  skipn n l = a :: r -> nth_error l n = Some a /\ skipn (S n) l = r.
Proof.
  revert l. induction n as [|n IH]; intros [|x l] H; cbn in *; try discriminate.
  - injection H as -> ->. auto.
  - apply IH in H. exact H.
Qed.

Lemma pump_ok_turn allreads n (next : Next Model) answer :
  nth_error allreads n = Some answer ->
  pump_ok (UserMsg:=UserMsg) allreads (S n) next (pump_turn n answer).
Proof.
  destruct answer as [k [e|]]; cbn; intros H.
  - repeat split. exists k. auto.
  - split; [reflexivity|]. exists k. auto.
Qed.

Lemma step_Inv p allreads s c l s' :
  Inv allreads s -> step p s c = Some (l, s') ->
  Inv allreads s' /\ (bound s <= bound s')%nat /\ received_ok allreads s s' l.
Proof.
  intros [Hr Hp] Hs. destruct c; cbn [step] in Hs.
  - (* main *)
    destruct (sys_ops s) as [|e rest]; [discriminate|].
    destruct (main_op s e rest) as [s1|] eqn:E; [|discriminate].
    injection Hs as <- <-.
    apply main_op_fields in E as (_ & Hn & Hrd & Hnr & Hpu).
    unfold Inv, bound. rewrite Hn, Hrd, Hnr.
    destruct Hpu as [-> | ->].
    + repeat split; auto.
    + repeat split; auto. destruct (sys_pump s) as [[|]|]; lia.
  - (* main receives from the pump *)
    destruct (sys_ops s); [|discriminate].
    destruct (sys_next s) as [model N|] eqn:En; [|discriminate].
    destruct (sys_pump s) as [[|[i err|i msg] ops]|] eqn:Ep; try discriminate;
      injection Hs as <- <-; unfold Inv, received_ok, bound; cbn; rewrite ?Ep.
    + destruct ops as [|[j e'|j m] [|]]; cbn in Hp; try contradiction.
      destruct Hp as (Hi & -> & k & -> & Hk).
      split; [split; [exact Hr|]|split; [lia|]].
      * cbn. split; [exact Hi|]. exists k. split; [reflexivity|]. right. eauto.
      * split; [eauto|split; reflexivity].
    + destruct ops; cbn in Hp; [|destruct p0; contradiction].
      destruct Hp as (Hi & k & -> & [Hk | (e & _ & He)]); [|discriminate].
      split; [split; [exact Hr|exact I]|]. split; [lia|].
      split; [eauto|lia].
  - (* main receives from a command goroutine *)
    destruct (sys_ops s); [|discriminate].
    destruct (sys_next s) as [model N|] eqn:En; [|discriminate].
    destruct (take_nth n (sys_msg_senders s)) as [[msg others]|]; [|discriminate].
    injection Hs as <- <-. unfold Inv, received_ok, bound; cbn.
    repeat split; auto.
    destruct (sys_pump s) as [[|[i e|i m] [|[j e'|j m'] [|]]]|]; cbn in *; auto.
    destruct Hp as (Hi & k & -> & [Hk | (e & _ & He)]); [|discriminate].
    split; [exact Hi|]. eauto.
  - (* the pump reads *)
    destruct (sys_pump s) as [[|]|] eqn:Ep; try discriminate.
    destruct (sys_reads s) as [|answer reads] eqn:Er; [discriminate|].
    injection Hs as <- <-. unfold Inv, received_ok, bound; cbn. rewrite Ep.
    symmetry in Hr. apply skipn_cons_nth in Hr as [Hn Hk].
    repeat split.
    + symmetry. exact Hk.
    + apply pump_ok_turn. exact Hn.
    + destruct answer as [k [e|]]; cbn; lia.
  - (* the dispatcher receives *)
    destruct (sys_disp s); try discriminate.
    destruct (take_nth n (sys_cmd_senders s)) as [[cmd others]|]; [|discriminate].
    injection Hs as <- <-. unfold Inv, received_ok, bound; cbn. auto.
  - (* the dispatcher exits *)
    destruct (sys_disp s); try discriminate.
    destruct (sys_done s); try discriminate.
    injection Hs as <- <-. unfold Inv, received_ok, bound; cbn. auto.
Qed.

Lemma pump_recvs_In (ls : list (Label Key Model UserMsg)) (i : nat) :
  In i (pump_recvs ls) -> exists m, In (LRecvPump i m) ls.
Proof.
  induction ls as [|l ls IH]; [intros []|].
  destruct l; cbn [pump_recvs]; intros H;
    try (destruct (IH H) as [m Hm]; exists m; right; exact Hm).
  destruct H as [-> | H].
  - eexists. left. reflexivity.
  - destruct (IH H) as [m Hm]. exists m. right. exact Hm.
Qed.

Lemma run_Inv p allreads schedule : forall s ls s',
  Inv allreads s -> run p s schedule = Some (ls, s') ->
  Inv allreads s' /\ (bound s <= bound s')%nat
  /\ (forall i m, In (LRecvPump i m) ls ->
        (exists k, nth_error allreads i = Some (k, None) /\ m = KeyMsg k)
        /\ (bound s <= i < bound s')%nat)
  /\ NoDup (pump_recvs ls).
Proof.
  induction schedule as [|c cs IH]; intros s ls s' HI Hrun; cbn [run] in Hrun.
  - injection Hrun as <- <-.
    split; [exact HI|]. split; [lia|]. split; [intros ? ? []|constructor].
  - destruct (step p s c) as [[l s1]|] eqn:Es; [|discriminate].
    destruct (run p s1 cs) as [[ls1 s2]|] eqn:Er; [|discriminate].
    injection Hrun as <- <-.
    destruct (step_Inv _ _ _ _ _ _ HI Es) as (HI1 & Hb1 & Hl).
    destruct (IH _ _ _ HI1 Er) as (HI2 & Hb2 & Hrecv & Hnd).
    split; [exact HI2|]. split; [lia|]. split.
    + intros i m [-> | Hin].
      * cbn in Hl. destruct Hl as [Hk Hi]. split; [exact Hk|lia].
      * destruct (Hrecv i m Hin) as [Hk Hi]. split; [exact Hk|lia].
    + destruct l; cbn [pump_recvs]; try exact Hnd.
      constructor; [|exact Hnd].
      intros Hin. apply pump_recvs_In in Hin as [m Hm].
      cbn in Hl. destruct (Hrecv _ _ Hm) as [_ Hi]. lia.
Qed.

Lemma main_op_done s e rest s' :
  main_op s e rest = Some s' ->
  sys_done s = true \/ In EvCloseDone (e :: rest) -> stopping s'.
Proof.
  unfold main_op, stopping.
  destruct e as [ | | | [c| | ] | | c | | | ]; cbn;
    try (intros [= <-]; cbn; intros [H | [H | H]]; auto; discriminate).
  destruct (sys_disp s); try discriminate.
  intros [= <-]; cbn; intros [H | [H | H]]; auto; discriminate.
Qed.

Lemma step_stopping p s c l s' :
  stopping s -> step p s c = Some (l, s') -> stopping s'.
Proof.
  intros Hst Hs. unfold stopping in *. destruct c; cbn [step] in Hs.
  - destruct (sys_ops s) as [|e rest] eqn:Eo; [discriminate|].
    destruct (main_op s e rest) as [s1|] eqn:E; [|discriminate].
    injection Hs as <- <-.
    apply (main_op_done _ _ _ _ E). exact Hst.
  - destruct (sys_ops s); [|discriminate].
    destruct (sys_next s) as [model N|] eqn:En; [|discriminate].
    destruct Hst as [Hd | []].
    destruct (sys_pump s) as [[|[i err|i msg] ops]|]; try discriminate;
      injection Hs as <- <-; left; exact Hd.
  - destruct (sys_ops s); [|discriminate].
    destruct (sys_next s) as [model N|] eqn:En; [|discriminate].
    destruct Hst as [Hd | []].
    destruct (take_nth n (sys_msg_senders s)) as [[msg others]|]; [|discriminate].
    injection Hs as <- <-. left. exact Hd.
  - destruct (sys_pump s) as [[|]|]; try discriminate.
    destruct (sys_reads s); [discriminate|].
    injection Hs as <- <-. exact Hst.
  - destruct (sys_disp s); try discriminate.
    destruct (take_nth n (sys_cmd_senders s)) as [[cmd others]|]; [|discriminate].
    injection Hs as <- <-. exact Hst.
  - destruct (sys_disp s); try discriminate.
    destruct (sys_done s) eqn:Ed; try discriminate.
    injection Hs as <- <-. destruct Hst as [H|H]; [left|right]; cbn; auto.
Qed.

Lemma step_winding p err s c l s' :
  winding err s -> step p s c = Some (l, s') -> winding err s' /\ quiet l.
Proof.
  intros (Hn & Ho & Hst) Hs.
  pose proof (step_stopping _ _ _ _ _ Hst Hs) as Hst'.
  unfold winding. destruct c; cbn [step] in Hs.
  - destruct (sys_ops s) as [|e rest] eqn:Eo; [discriminate|].
    destruct (main_op s e rest) as [s1|] eqn:E; [|discriminate].
    injection Hs as <- <-.
    apply main_op_fields in E as (Hops & Hnx & _).
    rewrite Hops, Hnx. inversion Ho as [|? ? He Hrest]. auto.
  - destruct (sys_ops s); [|discriminate]. rewrite Hn in Hs. discriminate.
  - destruct (sys_ops s); [|discriminate]. rewrite Hn in Hs. discriminate.
  - destruct (sys_pump s) as [[|]|]; try discriminate.
    destruct (sys_reads s); [discriminate|].
    injection Hs as <- <-. cbn. auto.
  - destruct (sys_disp s); try discriminate.
    destruct (take_nth n (sys_cmd_senders s)) as [[cmd others]|]; [|discriminate].
    injection Hs as <- <-. cbn. auto.
  - destruct (sys_disp s); try discriminate.
    destruct (sys_done s); try discriminate.
    injection Hs as <- <-. cbn. auto.
Qed.

Lemma run_winding p err schedule : forall s ls s',
  winding err s -> run p s schedule = Some (ls, s') ->
  winding err s' /\ Forall quiet ls.
Proof.
  induction schedule as [|c cs IH]; intros s ls s' Hw Hrun; cbn [run] in Hrun.
  - injection Hrun as <- <-. auto.
  - destruct (step p s c) as [[l s1]|] eqn:Es; [|discriminate].
    destruct (run p s1 cs) as [[ls1 s2]|] eqn:Er; [|discriminate].
    injection Hrun as <- <-.
    destruct (step_winding _ _ _ _ _ _ Hw Es) as [Hw1 Hq].
    destruct (IH _ _ _ Hw1 Er) as [Hw2 Hqs]. auto.
Qed.

(** A returning [Start] is never blocked: it returns. *)
Lemma winding_returns p err : forall n s,
  winding err s -> List.length (sys_ops s) = n ->
  exists ls s', run p s (repeat ChMain n) = Some (ls, s')
                /\ Forall quiet ls /\ returned s' err /\ sys_done s' = true.
Proof.
  induction n as [|n IH]; intros s (Hn & Ho & Hst) Hlen.
  - exists [], s. cbn. unfold stopping in Hst. unfold returned.
    destruct (sys_ops s) eqn:Eo; [|discriminate].
    destruct Hst as [Hd | []].
    split; [reflexivity|]. split; [constructor|]. split; [split; auto|exact Hd].
  - destruct (sys_ops s) as [|e rest] eqn:Eo; [discriminate|].
    inversion Ho as [|? ? He Hrest].
    assert (exists s1, main_op s e rest = Some s1) as [s1 E1].
    { destruct e; try contradiction; cbn; eauto. }
    pose proof (main_op_fields _ _ _ _ E1) as (Hops & Hnx & _).
    destruct (IH s1) as (ls & s' & Hr & Hq & Hret & Hd).
    { split; [congruence|]. split; [rewrite Hops; exact Hrest|].
      apply (main_op_done _ _ _ _ E1). unfold stopping in Hst.
      rewrite Eo in Hst. exact Hst. }
    { rewrite Hops. cbn in Hlen. lia. }
    exists (LMain e :: ls), s'. cbn [repeat run step]. rewrite Eo, E1, Hr.
    split; [reflexivity|]. split; [constructor; [exact He|exact Hq]|].
    split; [exact Hret|exact Hd].
Qed.

Lemma run_split p : forall (before : list (Label Key Model UserMsg)) l after schedule s s',
  run p s schedule = Some ((before ++ l :: after)%list, s') ->
  exists sched1 c sched2 s1 s2,
    run p s sched1 = Some (before, s1) /\ step p s1 c = Some (l, s2)
    /\ run p s2 sched2 = Some (after, s').
Proof.
  induction before as [|b before IH]; intros l after [|c cs] s s' Hrun;
    cbn [run app] in Hrun; try discriminate;
    destruct (step p s c) as [[l0 s1]|] eqn:Es; try discriminate;
    destruct (run p s1 cs) as [[ls1 s2]|] eqn:Er; try discriminate;
    injection Hrun as -> -> ->.
  - exists [], c, cs, s, s1. auto.
  - destruct (IH _ _ _ _ _ Er) as (sc1 & c' & sc2 & t1 & t2 & H1 & H2 & H3).
    exists (c :: sc1), c', sc2, t1, t2. cbn [run]. rewrite Es, H1. auto.
Qed.


Lemma step_quit p s c s' :
  step p s c = Some (LRecvCmd quitMsg, s') -> winding None s'.
Proof.
  intros Hs. destruct c; cbn [step] in Hs.
  - destruct (sys_ops s) as [|e rest]; [discriminate|].
    destruct (main_op s e rest); discriminate.
  - destruct (sys_ops s); [|discriminate].
    destruct (sys_next s); [|discriminate].
    destruct (sys_pump s) as [[|[i err|i msg] ops]|]; discriminate.
  - destruct (sys_ops s); [|discriminate].
    destruct (sys_next s) as [model N|]; [|discriminate].
    destruct (take_nth n (sys_msg_senders s)) as [[msg others]|]; [|discriminate].
    injection Hs as -> <-. unfold winding, stopping. cbn.
    split; [reflexivity|]. split; [repeat constructor|]. right. left. reflexivity.
  - destruct (sys_pump s) as [[|]|]; try discriminate.
    destruct (sys_reads s); discriminate.
  - destruct (sys_disp s); try discriminate.
    destruct (take_nth n (sys_cmd_senders s)) as [[cmd others]|]; discriminate.
  - destruct (sys_disp s); try discriminate.
    destruct (sys_done s); discriminate.
Qed.

(** C7.  On a quit message the loop closes [done], the deferred
    [restoreTerminal] runs and [Start] returns nil.  In every run in which
    main receives a quit message, whatever the schedule, main afterwards
    calls no [Update], writes nothing to the terminal and receives nothing
    more, and it returns nil with [done] closed. *)
Theorem quit_returns p s0 schedule before after s
    (Hrun : run p s0 schedule = Some ((before ++ LRecvCmd quitMsg :: after)%list, s)) :
  (forall model N,
      turn p model N (RecvMsg quitMsg) = ([EvCloseDone; EvRestoreTerminal], Exit None))
  /\ Forall quiet after
  /\ exists ls s',
       run p s (repeat ChMain (List.length (sys_ops s))) = Some (ls, s')
       /\ Forall quiet ls /\ returned s' None /\ sys_done s' = true.
Proof.
  split; [reflexivity|].
  destruct (run_split _ _ _ _ _ _ _ Hrun)
    as (sc1 & c & sc2 & s1 & s2 & _ & H2 & H3).
  pose proof (step_quit _ _ _ _ H2) as Hw.
  destruct (run_winding _ _ _ _ _ _ Hw H3) as [Hw' Hq].
  split; [exact Hq|].
  exact (winding_returns p None _ s Hw' eq_refl).
Qed.

(** Main sends the commands of a batch one after the other; the dispatcher
    takes each and starts a goroutine for each that is not nil. *)
Lemma send_all p : forall (cmds : list (Cmd Key UserMsg)) s,
  sys_ops s = List.map EvSendCmd cmds -> sys_disp s = DispRunning ->
  exists s',
    run p s (repeat ChMain (List.length cmds))
      = Some (List.map (fun cmd => LMain (EvSendCmd cmd)) cmds, s')
    /\ sys_ops s' = [] /\ sys_next s' = sys_next s
    /\ sys_msg_senders s' = (sys_msg_senders s ++ flat_map dispatch cmds)%list.
Proof.
  induction cmds as [|cmd cmds IH]; intros s Hops Hdisp.
  - exists s. cbn. rewrite app_nil_r. auto.
  - cbn [List.length repeat run step List.map]. cbn [List.map] in Hops.
    rewrite Hops. unfold main_op. cbn [set_main sys_disp fst snd]. rewrite Hdisp.
    match goal with
    | |- context [run p ?t _] => destruct (IH t) as (s' & Hr & Ho & Hn & Hm)
    end; [reflexivity|exact Hdisp|].
    exists s'. rewrite Hr. cbn in Hn, Hm.
    split; [reflexivity|]. split; [exact Ho|]. split; [exact Hn|].
    rewrite Hm. cbn [flat_map]. rewrite app_assoc. reflexivity.
Qed.

(** C4.  On a batch message the loop does not call [Update] and writes
    nothing to the terminal: it sends each command of the batch on [cmds],
    in the order of the batch, each taken by the dispatcher in that order,
    and is back at its select with the same model and the same line
    count. *)
Theorem batch_turn p s (n : nat) (others : list (Msg Key UserMsg))
    (batchedCmds : list (Cmd Key UserMsg)) (model : Model) (N : Z)
    (Hops : sys_ops s = [])
    (Hnext : sys_next s = Wait model N)
    (Hdisp : sys_disp s = DispRunning)
    (Hmsg : take_nth n (sys_msg_senders s) = Some (batchMsg batchedCmds, others)) :
  turn p model N (RecvMsg (batchMsg batchedCmds))
    = (List.map EvSendCmd batchedCmds, Wait model N)
  /\ exists s',
       run p s (ChRecvCmd n :: repeat ChMain (List.length batchedCmds))
         = Some (LRecvCmd (batchMsg batchedCmds)
                   :: List.map (fun cmd => LMain (EvSendCmd cmd)) batchedCmds, s')
       /\ sys_ops s' = [] /\ sys_next s' = Wait model N
       /\ sys_msg_senders s' = (others ++ flat_map dispatch batchedCmds)%list.
Proof.
  split; [reflexivity|].
  cbn [run step]. rewrite Hops, Hnext, Hmsg. cbn [turn].
  match goal with
  | |- context [run p ?t _] =>
      destruct (send_all p batchedCmds t) as (s' & Hr & Ho & Hn & Hm)
  end; [reflexivity|exact Hdisp|].
  exists s'. rewrite Hr. cbn in Hn, Hm. auto.
Qed.

(** C3, as amended.  On an ordinary message the loop calls [Update] on the
    message and the current model, sends the returned command on [cmds]
    whether it is nil or not, then repaints the returned model and waits
    with it.  The dispatcher takes the command and starts one goroutine for
    it unless it is nil: a nil command is dropped there. *)
Theorem ordinary_turn p s (n : nat) (others : list (Msg Key UserMsg))
    (msg : Msg Key UserMsg) (model : Model) (N : Z)
    (Hord : ordinary msg)
    (Hops : sys_ops s = [])
    (Hnext : sys_next s = Wait model N)
    (Hdisp : sys_disp s = DispRunning)
    (Hmsg : take_nth n (sys_msg_senders s) = Some (msg, others)) :
  let model' := fst (update p msg model) in
  let cmd := snd (update p msg model) in
  turn p model N (RecvMsg msg)
    = ((EvUpdate msg model :: EvSendCmd cmd :: snd (render p model' N))%list,
       Wait model' (fst (render p model' N)))
  /\ dispatch (Key:=Key) (UserMsg:=UserMsg) None = []
  /\ (forall f, dispatch (Key:=Key) (UserMsg:=UserMsg) (Some f) = [f tt])
  /\ exists s',
       run p s [ChRecvCmd n; ChMain; ChMain]
         = Some ([LRecvCmd msg; LMain (EvUpdate msg model); LMain (EvSendCmd cmd)], s')
       /\ sys_ops s' = snd (render p model' N)
       /\ sys_next s' = Wait model' (fst (render p model' N))
       /\ sys_msg_senders s' = (others ++ dispatch cmd)%list.
Proof.
  cbn zeta.
  assert (Ht : turn p model N (RecvMsg msg)
    = ((EvUpdate msg model :: EvSendCmd (snd (update p msg model))
          :: snd (render p (fst (update p msg model)) N))%list,
       Wait (fst (update p msg model))
            (fst (render p (fst (update p msg model)) N)))).
  { destruct msg; try contradiction; cbn [turn];
      destruct (update p _ model) as [model' cmd]; cbn [fst snd];
      destruct (render p model' N); reflexivity. }
  split; [exact Ht|]. split; [reflexivity|]. split; [reflexivity|].
  cbn [run step]. rewrite Hops, Hnext, Hmsg, Ht.
  cbn [set_main set_msg_senders sys_ops sys_next sys_disp main_op fst snd].
  rewrite Hdisp. eexists. split; [reflexivity|]. cbn. auto.
Qed.

End Goroutines.


(** ** The cancelable readers *)

Section ReaderProps.

Context {P : Platform} {Msg : Type}.

(** C8.  With the cancellation flag set, [ReadInput] of either reader
    returns the canceled error at once: whatever the environment would
    answer, it makes no wait, no read and no call of the decoder. *)
Theorem cancelled_ReadInput
    (rs : selectInputReader.t) (re : epollInputReader.t)
    (selects : list SelectAnswer) (epolls : list EpollAnswer)
    (sigread : option error) (dec : DecodeAnswer Msg)
    (Hs : isCancelled (selectInputReader.cancel rs) = true)
    (He : isCancelled (epollInputReader.cancel re) = true) :
  selectInputReader.ReadInput rs selects sigread dec
    = (Returned ([], Some errCanceled), [])
  /\ epollInputReader.ReadInput re epolls sigread dec
    = (Returned ([], Some errCanceled), []).
Proof.
  unfold selectInputReader.ReadInput, epollInputReader.ReadInput.
  rewrite Hs, He. split; reflexivity.
Qed.


Lemma to_int_small (fd : Z) : 0 <= fd < 2 ^ 63 -> to_int fd = fd.
Proof.
  intros H. unfold to_int. rewrite Z.mod_small by lia.
  destruct (fd <? 2 ^ 63) eqn:E; [reflexivity|]. apply Z.ltb_ge in E. lia.
Qed.

(** With both descriptors below the ceiling, [waitForRead] calls [select]. *)
Lemma waitForRead_selects (r : selectInputReader.t) (answer : option SelectAnswer) :
  selectInputReader.maxFd r < FD_SETSIZE ->
  snd (waitForRead (selectInputReader.file r) (selectInputReader.cancelSignalReader r) answer)
  = [SysSelect (selectInputReader.maxFd r + 1) (selectInputReader.waitSet r)].
Proof.
  intros Hmax. unfold waitForRead.
  change (if to_int (selectInputReader.file r)
             <? to_int (selectInputReader.cancelSignalReader r)
          then to_int (selectInputReader.cancelSignalReader r)
          else to_int (selectInputReader.file r))
    with (selectInputReader.maxFd r).
  destruct (FD_SETSIZE <=? selectInputReader.maxFd r) eqn:E;
    [apply Z.leb_le in E; lia|].
  destruct answer as [[n|ready]|]; try reflexivity.
  destruct (FdSet.IsSet ready _); [reflexivity|].
  destruct (FdSet.IsSet ready _); reflexivity.
Qed.

(** An interrupted wait is one more turn of the loop. *)
Lemma select_loop_EINTR (r : selectInputReader.t) (n : nat) (rest : list SelectAnswer)
    (sigread : option error) (dec : DecodeAnswer Msg) :
  selectInputReader.maxFd r < FD_SETSIZE ->
  selectInputReader.loop r (selectInputReader.EINTRs n ++ rest) sigread dec
  = (fst (selectInputReader.loop r rest sigread dec),
     (repeat (SysSelect (selectInputReader.maxFd r + 1) (selectInputReader.waitSet r)) n
        ++ snd (selectInputReader.loop r rest sigread dec))%list).
Proof.
  intros Hmax. induction n as [|n IH].
  - cbn [selectInputReader.EINTRs repeat app].
    destruct (selectInputReader.loop r rest sigread dec); reflexivity.
  - cbn [selectInputReader.EINTRs repeat app selectInputReader.loop].
    fold (selectInputReader.EINTRs n). rewrite IH.
    unfold selectInputReader.turn, waitForRead.
    fold (selectInputReader.maxFd r). fold (selectInputReader.waitSet r).
    destruct (FD_SETSIZE <=? selectInputReader.maxFd r) eqn:E;
      [apply Z.leb_le in E; lia|].
    reflexivity.
Qed.

Lemma epoll_wait_EINTR (r : epollInputReader.t) (n : nat) (rest : list EpollAnswer) :
  epollInputReader.wait r (epollInputReader.EINTRs n ++ rest)
  = (fst (epollInputReader.wait r rest),
     (repeat (SysEpollWait (epollInputReader.epoll r)) n
        ++ snd (epollInputReader.wait r rest))%list).
Proof.
  induction n as [|n IH].
  - cbn [epollInputReader.EINTRs repeat app].
    destruct (epollInputReader.wait r rest); reflexivity.
  - cbn [epollInputReader.EINTRs repeat app epollInputReader.wait].
    fold (epollInputReader.EINTRs n). rewrite IH. reflexivity.
Qed.

(** C5, as amended.  A [ReadInput] that the cancel signal wakes, after any
    number of interrupted waits, reads one byte from the signal channel
    and calls no decoder; it returns no message, and the canceled error
    when that read succeeds, or an error wrapping the failure of that read
    when it fails.  For the select reader this holds whenever the signal
    descriptor is in the set [select] leaves, whether the target
    descriptor is in it or not. *)
Theorem woken_by_cancel (rs : selectInputReader.t) (re : epollInputReader.t)
    (n : nat) (ready : FdSet) (selects : list SelectAnswer)
    (epolls : list EpollAnswer) (sigread : option error) (dec : DecodeAnswer Msg)
    (Hs : isCancelled (selectInputReader.cancel rs) = false)
    (He : isCancelled (epollInputReader.cancel re) = false)
    (Hmax : selectInputReader.maxFd rs < FD_SETSIZE)
    (Hready : FdSet.IsSet ready (to_int (selectInputReader.cancelSignalReader rs)) = true)
    (Hfds : to_int32 (epollInputReader.cancelSignalReader re)
            <> to_int32 (epollInputReader.file re)) :
  let outcome :=
    Returned ([], Some match sigread with
                       | None => errCanceled
                       | Some readErr => Errorf_w "reading cancel signal: " readErr
                       end) in
  let select_call :=
    SysSelect (selectInputReader.maxFd rs + 1) (selectInputReader.waitSet rs) in
  let epoll_call := SysEpollWait (epollInputReader.epoll re) in
  selectInputReader.ReadInput rs
      (selectInputReader.EINTRs n ++ SelectOk ready :: selects) sigread dec
    = (outcome,
       (repeat select_call n
          ++ [select_call; SysRead (selectInputReader.cancelSignalReader rs) 1])%list)
  /\ epollInputReader.ReadInput re
      (epollInputReader.EINTRs n
         ++ EpollOk (to_int32 (epollInputReader.cancelSignalReader re)) :: epolls)
      sigread dec
    = (outcome,
       (repeat epoll_call n
          ++ [epoll_call; SysRead (epollInputReader.cancelSignalReader re) 1])%list).
Proof.
  cbn zeta. split.
  - unfold selectInputReader.ReadInput. rewrite Hs, select_loop_EINTR by exact Hmax.
    cbn [selectInputReader.loop]. unfold selectInputReader.turn, waitForRead.
    fold (selectInputReader.maxFd rs). fold (selectInputReader.waitSet rs).
    destruct (FD_SETSIZE <=? selectInputReader.maxFd rs) eqn:E;
      [apply Z.leb_le in E; lia|].
    rewrite Hready. cbn [errors_Is error_eqb orb EINTR].
    destruct sigread; reflexivity.
  - unfold epollInputReader.ReadInput. rewrite He, epoll_wait_EINTR.
    cbn [epollInputReader.wait fst snd]. unfold epollInputReader.switch.
    destruct (to_int32 (epollInputReader.cancelSignalReader re)
              =? to_int32 (epollInputReader.file re)) eqn:E;
      [apply Z.eqb_eq in E; contradiction|].
    rewrite Z.eqb_refl. cbn [errors_Is error_eqb orb].
    destruct sigread; rewrite <- app_assoc; reflexivity.
Qed.

(** Whatever [select] answers, the first call of a turn is logged first. *)
Lemma select_turn_selects (r : selectInputReader.t) (answer : option SelectAnswer)
    (sigread : option error) (dec : DecodeAnswer Msg) :
  selectInputReader.maxFd r < FD_SETSIZE ->
  exists tr,
    snd (selectInputReader.turn r answer sigread dec)
    = SysSelect (selectInputReader.maxFd r + 1) (selectInputReader.waitSet r) :: tr.
Proof.
  intros Hmax. unfold selectInputReader.turn.
  pose proof (waitForRead_selects r answer Hmax) as Hw.
  destruct (waitForRead _ _ answer) as [o tr]. cbn [snd] in Hw. subst tr.
  destruct o as [[err|]|]; [| |eexists; reflexivity].
  - destruct (errors_Is err EINTR); [eexists; reflexivity|].
    destruct (errors_Is err errCanceled); [|eexists; reflexivity].
    destruct sigread; eexists; reflexivity.
  - destruct dec; eexists; reflexivity.
Qed.

(** C1, as amended.  The constructor falls back whenever the stream is not
    a file or its descriptor is at or above the ceiling; it does not look
    at the descriptors of the signal channel.  With the signal descriptor
    at or above the ceiling the select reader is built all the same and
    every [ReadInput] fails on the ceiling before it waits; with both
    descriptors below the ceiling every [ReadInput] gets to its wait. *)
Theorem select_ceiling (big fd sigR sigW lowR lowW : Z) (pipe : PipeAnswer)
    (selects : list SelectAnswer) (sigread : option error) (dec : DecodeAnswer Msg)
    (Hsize : FD_SETSIZE <= 2 ^ 63)
    (Hbig : FD_SETSIZE <= big)
    (Hfd : 0 <= fd < FD_SETSIZE)
    (HsigR : FD_SETSIZE <= to_int sigR)
    (HlowR : to_int lowR < FD_SETSIZE) :
  let high := {| selectInputReader.file := fd;
                 selectInputReader.cancelSignalReader := sigR;
                 selectInputReader.cancelSignalWriter := sigW;
                 selectInputReader.cancel := notCancelled |} in
  let low := {| selectInputReader.file := fd;
                selectInputReader.cancelSignalReader := lowR;
                selectInputReader.cancelSignalWriter := lowW;
                selectInputReader.cancel := notCancelled |} in
  (* the target stream is checked *)
  newSelectInputReader (osFile big) pipe = UseFallback (osFile big)
  /\ newSelectInputReader otherReader pipe = UseFallback otherReader
  (* the signal channel is not *)
  /\ newSelectInputReader (osFile fd) (PipeOk sigR sigW) = UseSelect high
  /\ newSelectInputReader (osFile fd) (PipeOk lowR lowW) = UseSelect low
  (* a signal descriptor at or above the ceiling fails every read, before any wait *)
  /\ selectInputReader.ReadInput high selects sigread dec
     = (Returned ([], Some (fdLimitError (to_int sigR))), [])
  (* with both descriptors below the ceiling the read gets to its wait *)
  /\ exists tr, snd (selectInputReader.ReadInput low selects sigread dec)
                = SysSelect (selectInputReader.maxFd low + 1)
                            (selectInputReader.waitSet low) :: tr.
Proof.
  cbn zeta.
  assert (Hfd' : to_int fd = fd) by (apply to_int_small; lia).
  unfold newSelectInputReader.
  destruct (FD_SETSIZE <=? big) eqn:Eb; [|apply Z.leb_gt in Eb; lia].
  destruct (FD_SETSIZE <=? fd) eqn:Ef; [apply Z.leb_le in Ef; lia|].
  do 4 (split; [reflexivity|]).
  unfold selectInputReader.ReadInput.
  cbn [isCancelled selectInputReader.cancel notCancelled unsafeCancelled].
  split.
  - assert (Hw : forall a, waitForRead fd sigR a
                           = (Returned (Some (fdLimitError (to_int sigR))), [])).
    { intros a. unfold waitForRead. rewrite Hfd'.
      destruct (fd <? to_int sigR) eqn:E; [|apply Z.ltb_ge in E; lia].
      destruct (FD_SETSIZE <=? to_int sigR) eqn:E'; [reflexivity|].
      apply Z.leb_gt in E'. lia. }
    destruct selects as [|a rest]; cbn [selectInputReader.loop];
      unfold selectInputReader.turn;
      cbn [selectInputReader.file selectInputReader.cancelSignalReader];
      rewrite Hw; reflexivity.
  - match goal with |- context [selectInputReader.maxFd ?r] => set (low := r) end.
    assert (Hmax : selectInputReader.maxFd low < FD_SETSIZE).
    { unfold selectInputReader.maxFd, low.
      cbn [selectInputReader.file selectInputReader.cancelSignalReader].
      rewrite Hfd'. destruct (fd <? to_int lowR); lia. }
    destruct selects as [|a rest]; cbn [selectInputReader.loop].
    + destruct (select_turn_selects low None sigread dec Hmax) as [tr Htr].
      destruct (selectInputReader.turn low None sigread dec) as [o tr0].
      cbn [snd] in Htr. subst tr0.
      destruct o as [[|res]|]; eexists; reflexivity.
    + destruct (select_turn_selects low (Some a) sigread dec Hmax) as [tr Htr].
      destruct (selectInputReader.turn low (Some a) sigread dec) as [o tr0].
      cbn [snd] in Htr. subst tr0.
      destruct o as [[|res]|]; try (eexists; reflexivity).
      destruct (selectInputReader.loop low rest sigread dec). eexists; reflexivity.
Qed.

End ReaderProps.

(** ** The statements on the sample program and readers *)

(** With the epoll descriptor and the read end failing to close, the error
    of [Close] names both. *)
Example Close_two_failures :
  fst (epollInputReader.Close Sample.ep
         (Some (Errno 9)) None (Some (errorString "file already closed")))
  = Some (errorString
      "closing epoll: errno 9, closing cancel signal reader: file already closed").
Proof. reflexivity. Qed.


(** C3, as stated, fails: [Update] of the sample program returns the nil
    command, and the loop sends it on [cmds]. *)
Lemma nil_command_is_sent :
  fst (turn Sample.prog 0%nat 0 (RecvMsg (userMsg tt)))
  = [EvUpdate (userMsg tt) 0%nat; EvSendCmd None; EvWrite (String "x" crnl)].
Proof. reflexivity. Qed.

Lemma ordinary_turn_witness :
  ordinary (Key:=nat) (userMsg tt)
  /\ exists s',
       run Sample.prog (Sample.delivering (userMsg tt)) [ChRecvCmd 0; ChMain; ChMain]
       = Some ([LRecvCmd (userMsg tt); LMain (EvUpdate (userMsg tt) 0%nat);
                LMain (EvSendCmd None)], s')
       /\ sys_ops s' = [EvClearLines 1; EvWrite (String "x" crnl)]
       /\ sys_next s' = Wait 1%nat 1
       /\ sys_msg_senders s' = [].
Proof.
  split; [exact I|].
  exact (proj2 (proj2 (proj2
           (ordinary_turn nat nat unit Sample.prog (Sample.delivering (userMsg tt))
              0 [] (userMsg tt) 0%nat 1 I eq_refl eq_refl eq_refl eq_refl)))).
Defined.

(** C1, as stated, fails: with standard input and a signal pipe on
    descriptors 1024 and 1025 the constructor builds the select reader, and
    its [ReadInput] fails on the ceiling. *)
Lemma signal_descriptor_unchecked :
  newSelectInputReader (osFile 0) (PipeOk 1024 1025)
  = UseSelect Sample.sel_high
  /\ selectInputReader.ReadInput Sample.sel_high [SelectOk 1] None (DecodeOk tt)
     = (Returned ([], Some (errorString
          "cannot select on file descriptor 1024 which is larger than 1024")), []).
Proof. split; vm_compute; reflexivity. Qed.

Lemma select_ceiling_witness :
  FD_SETSIZE <= 2 ^ 63 /\ FD_SETSIZE <= 2000
  /\ 0 <= 0 < FD_SETSIZE /\ FD_SETSIZE <= to_int 1024
  /\ to_int 3 < FD_SETSIZE
  /\ newSelectInputReader (osFile 2000) (PipeOk 3 4)
     = UseFallback (osFile 2000)
  /\ selectInputReader.ReadInput Sample.sel_high [] None (DecodeOk tt)
     = (Returned ([], Some (fdLimitError (to_int 1024))), []).
Proof.
  assert (H1 : FD_SETSIZE <= 2 ^ 63) by (vm_compute; discriminate).
  assert (H2 : FD_SETSIZE <= 2000) by (vm_compute; discriminate).
  assert (H3 : 0 <= 0 < FD_SETSIZE) by (split; vm_compute; congruence).
  assert (H4 : FD_SETSIZE <= to_int 1024) by (vm_compute; discriminate).
  assert (H5 : to_int 3 < FD_SETSIZE) by (vm_compute; reflexivity).
  pose proof (select_ceiling 2000 0 1024 1025 3 4 (PipeOk 3 4) [] None
                (DecodeOk tt) H1 H2 H3 H4 H5) as H.
  cbn zeta in H. destruct H as (Ha & _ & _ & _ & Hb & _).
  repeat (split; [assumption|]). exact Hb.
Defined.

(** C5, as stated, fails: the select reader is woken with the signal
    descriptor (and the target descriptor) ready, the read of the signal
    byte fails because the pipe was closed meanwhile, and [ReadInput]
    returns an error that is not the canceled error. *)
Lemma failed_drain_is_not_canceled :
  fst (waitForRead 0 3
         (Some (SelectOk 9))) = Returned (Some errCanceled)
  /\ selectInputReader.ReadInput Sample.sel [SelectOk 9] (Some (errorString "file already closed")) (DecodeOk tt)
     = (Returned ([], Some (wrapError "reading cancel signal: file already closed"
                              (errorString "file already closed"))),
        [SysSelect 4 9; SysRead 3 1])
  /\ errors_Is (wrapError "reading cancel signal: file already closed"
                  (errorString "file already closed")) errCanceled = false.
Proof. repeat split; vm_compute; reflexivity. Qed.

Lemma woken_by_cancel_witness :
  isCancelled (selectInputReader.cancel Sample.sel) = false
  /\ isCancelled (epollInputReader.cancel Sample.ep) = false
  /\ selectInputReader.maxFd Sample.sel < FD_SETSIZE
  /\ FdSet.IsSet 9 (to_int (selectInputReader.cancelSignalReader Sample.sel)) = true
  /\ to_int32 (epollInputReader.cancelSignalReader Sample.ep) <> to_int32 (epollInputReader.file Sample.ep)
  /\ selectInputReader.ReadInput Sample.sel [SelectErr 4; SelectErr 4; SelectOk 9] None (DecodeOk tt)
     = (Returned ([], Some errCanceled),
        [SysSelect 4 9; SysSelect 4 9; SysSelect 4 9; SysRead 3 1])
  /\ epollInputReader.ReadInput Sample.ep [EpollErr 4; EpollErr 4; EpollOk 3] None (DecodeOk tt)
     = (Returned ([], Some errCanceled),
        [SysEpollWait 5; SysEpollWait 5; SysEpollWait 5; SysRead 3 1]).
Proof.
  assert (H1 : isCancelled (selectInputReader.cancel Sample.sel) = false) by reflexivity.
  assert (H2 : isCancelled (epollInputReader.cancel Sample.ep) = false) by reflexivity.
  assert (H3 : selectInputReader.maxFd Sample.sel < FD_SETSIZE) by (vm_compute; reflexivity).
  assert (H4 : FdSet.IsSet 9 (to_int (selectInputReader.cancelSignalReader Sample.sel)) = true)
    by (vm_compute; reflexivity).
  assert (H5 : to_int32 (epollInputReader.cancelSignalReader Sample.ep) <> to_int32 (epollInputReader.file Sample.ep))
    by (vm_compute; discriminate).
  repeat (split; [assumption|]).
  exact (woken_by_cancel Sample.sel Sample.ep 2 9 [] [] None (DecodeOk tt)
           H1 H2 H3 H4 H5).
Defined.

Lemma cancelled_ReadInput_witness :
  let rs := fst (fst (selectInputReader.Cancel Sample.sel None)) in
  let re := fst (fst (epollInputReader.Cancel Sample.ep None)) in
  isCancelled (selectInputReader.cancel rs) = true
  /\ isCancelled (epollInputReader.cancel re) = true
  /\ selectInputReader.ReadInput rs [] None (DecodeOk tt) = (Returned ([], Some errCanceled), [])
  /\ epollInputReader.ReadInput re [] None (DecodeOk tt) = (Returned ([], Some errCanceled), []).
Proof.
  cbn zeta.
  split; [reflexivity|]. split; [reflexivity|].
  exact (cancelled_ReadInput
           (fst (fst (selectInputReader.Cancel Sample.sel None)))
           (fst (fst (epollInputReader.Cancel Sample.ep None)))
           [] [] None (DecodeOk tt) eq_refl eq_refl).
Defined.

Lemma batch_turn_witness :
  exists s',
    run Sample.prog (Sample.delivering (batchMsg [None; Some Quit]))
        [ChRecvCmd 0; ChMain; ChMain]
    = Some ([LRecvCmd (batchMsg [None; Some Quit]);
             LMain (EvSendCmd None); LMain (EvSendCmd (Some Quit))], s')
    /\ sys_ops s' = [] /\ sys_next s' = Wait 0%nat 1
    /\ sys_msg_senders s' = [quitMsg].
Proof.
  exact (proj2 (batch_turn nat nat unit Sample.prog
                  (Sample.delivering (batchMsg [None; Some Quit]))
                  0 [] [None; Some Quit] 0%nat 1
                  eq_refl eq_refl eq_refl eq_refl)).
Defined.

Lemma quit_returns_witness :
  exists s,
    run Sample.prog (Sample.delivering quitMsg) [ChRecvCmd 0; ChMain]
    = Some (([] ++ LRecvCmd quitMsg :: [LMain EvCloseDone])%list, s)
    /\ exists ls s',
         run Sample.prog s (repeat ChMain (List.length (sys_ops s))) = Some (ls, s')
         /\ Forall quiet ls /\ returned s' None /\ sys_done s' = true.
Proof.
  eexists. split.
  - vm_compute. reflexivity.
  - refine (proj2 (proj2 (quit_returns nat nat unit Sample.prog
                            (Sample.delivering quitMsg)
                            [ChRecvCmd 0; ChMain]
                            [] [LMain EvCloseDone] _ _))).
    vm_compute. reflexivity.
Defined.

(** * Further properties of the readers *)

Section ReaderMore.

Context {P : Platform} {Msg : Type}.


(** X2.  Interrupted waits are retried and change nothing but the number of
    waits made: a [ReadInput] whose first [n] waits are interrupted ends as
    the same call without them, with [n] more waits logged first.  With no
    answer after the interruptions the call is still waiting. *)
Theorem interrupted_waits_retried (rs : selectInputReader.t) (re : epollInputReader.t)
    (n : nat) (selects : list SelectAnswer) (epolls : list EpollAnswer)
    (sigread : option error) (dec : DecodeAnswer Msg)
    (Hs : isCancelled (selectInputReader.cancel rs) = false)
    (He : isCancelled (epollInputReader.cancel re) = false)
    (Hmax : selectInputReader.maxFd rs < FD_SETSIZE) :
  let select_call :=
    SysSelect (selectInputReader.maxFd rs + 1) (selectInputReader.waitSet rs) in
  let epoll_call := SysEpollWait (epollInputReader.epoll re) in
  selectInputReader.ReadInput rs (selectInputReader.EINTRs n ++ selects) sigread dec
    = (fst (selectInputReader.ReadInput rs selects sigread dec),
       (repeat select_call n
          ++ snd (selectInputReader.ReadInput rs selects sigread dec))%list)
  /\ epollInputReader.ReadInput re (epollInputReader.EINTRs n ++ epolls) sigread dec
    = (fst (epollInputReader.ReadInput re epolls sigread dec),
       (repeat epoll_call n
          ++ snd (epollInputReader.ReadInput re epolls sigread dec))%list)
  /\ selectInputReader.ReadInput rs (selectInputReader.EINTRs n) sigread dec
    = (Blocked, repeat select_call (S n))
  /\ epollInputReader.ReadInput re (epollInputReader.EINTRs n) sigread dec
    = (Blocked, repeat epoll_call (S n)).
Proof.
  cbn zeta.
  assert (Hsel : forall rest,
    selectInputReader.ReadInput rs (selectInputReader.EINTRs n ++ rest) sigread dec
    = (fst (selectInputReader.ReadInput rs rest sigread dec),
       (repeat (SysSelect (selectInputReader.maxFd rs + 1) (selectInputReader.waitSet rs)) n
          ++ snd (selectInputReader.ReadInput rs rest sigread dec))%list)).
  { intros rest. unfold selectInputReader.ReadInput. rewrite Hs.
    apply select_loop_EINTR. exact Hmax. }
  assert (Hep : forall rest,
    epollInputReader.ReadInput re (epollInputReader.EINTRs n ++ rest) sigread dec
    = (fst (epollInputReader.ReadInput re rest sigread dec),
       (repeat (SysEpollWait (epollInputReader.epoll re)) n
          ++ snd (epollInputReader.ReadInput re rest sigread dec))%list)).
  { intros rest. unfold epollInputReader.ReadInput. rewrite He, epoll_wait_EINTR.
    destruct (epollInputReader.wait re rest) as [[[err|]|] tr]; cbn [fst snd].
    - destruct (errors_Is err errCanceled); [|reflexivity].
      destruct sigread; cbn [fst snd]; rewrite app_assoc; reflexivity.
    - destruct dec; cbn [fst snd]; rewrite app_assoc; reflexivity.
    - reflexivity. }
  split; [apply Hsel|]. split; [apply Hep|].
  split.
  - rewrite <- (app_nil_r (selectInputReader.EINTRs n)), Hsel.
    unfold selectInputReader.ReadInput. rewrite Hs.
    cbn [selectInputReader.loop]. unfold selectInputReader.turn, waitForRead.
    fold (selectInputReader.maxFd rs). fold (selectInputReader.waitSet rs).
    destruct (FD_SETSIZE <=? selectInputReader.maxFd rs) eqn:E;
      [apply Z.leb_le in E; lia|].
    cbn [fst snd]. rewrite <- repeat_cons. reflexivity.
  - rewrite <- (app_nil_r (epollInputReader.EINTRs n)), Hep.
    unfold epollInputReader.ReadInput. rewrite He.
    cbn [epollInputReader.wait fst snd]. rewrite <- repeat_cons. reflexivity.
Qed.

(** X3.  A wait that fails with an errno other than [EINTR] is not retried:
    [ReadInput] returns at once, with no message, an error that wraps the
    errno (so [errors.Is] finds it) and is not the canceled error, and it
    neither reads the signal channel nor calls the decoder. *)
Theorem wait_failure_is_returned (rs : selectInputReader.t) (re : epollInputReader.t)
    (n : nat) (errno : Z) (selects : list SelectAnswer) (epolls : list EpollAnswer)
    (sigread : option error) (dec : DecodeAnswer Msg)
    (Hs : isCancelled (selectInputReader.cancel rs) = false)
    (He : isCancelled (epollInputReader.cancel re) = false)
    (Hmax : selectInputReader.maxFd rs < FD_SETSIZE)
    (Herrno : errno <> 4) :
  let select_call :=
    SysSelect (selectInputReader.maxFd rs + 1) (selectInputReader.waitSet rs) in
  let epoll_call := SysEpollWait (epollInputReader.epoll re) in
  selectInputReader.ReadInput rs
      (selectInputReader.EINTRs n ++ SelectErr errno :: selects) sigread dec
    = (Returned ([], Some (Errorf_w "select: " (Errno errno))),
       (repeat select_call n ++ [select_call])%list)
  /\ epollInputReader.ReadInput re
      (epollInputReader.EINTRs n ++ EpollErr errno :: epolls) sigread dec
    = (Returned ([], Some (Errorf_w "kevent: " (Errno errno))),
       (repeat epoll_call n ++ [epoll_call])%list)
  /\ (forall prefix, errors_Is (Errorf_w prefix (Errno errno)) (Errno errno) = true)
  /\ (forall prefix, errors_Is (Errorf_w prefix (Errno errno)) errCanceled = false)
  /\ (forall prefix, errors_Is (Errorf_w prefix (Errno errno)) EINTR = false).
Proof.
  cbn zeta.
  assert (H4 : (errno =? 4) = false) by (apply Z.eqb_neq; exact Herrno).
  split; [|split; [|split; [|split]]].
  - unfold selectInputReader.ReadInput. rewrite Hs, select_loop_EINTR by exact Hmax.
    cbn [selectInputReader.loop]. unfold selectInputReader.turn, waitForRead.
    fold (selectInputReader.maxFd rs). fold (selectInputReader.waitSet rs).
    destruct (FD_SETSIZE <=? selectInputReader.maxFd rs) eqn:E;
      [apply Z.leb_le in E; lia|].
    unfold Errorf_w. cbn [errors_Is error_eqb orb EINTR]. rewrite H4. reflexivity.
  - unfold epollInputReader.ReadInput. rewrite He, epoll_wait_EINTR.
    cbn [epollInputReader.wait errors_Is error_eqb orb EINTR]. rewrite H4.
    cbn [fst snd]. unfold Errorf_w. cbn [errors_Is error_eqb orb]. reflexivity.
  - intros prefix. unfold Errorf_w. cbn [errors_Is error_eqb orb].
    rewrite Z.eqb_refl. reflexivity.
  - intros prefix. reflexivity.
  - intros prefix. unfold Errorf_w. cbn [errors_Is error_eqb orb EINTR].
    rewrite H4. reflexivity.
Qed.


(** X5.  [Cancel] sets the flag, writes the one byte "c" to the write end
    of the signal channel and reports whether that write succeeded; it does
    so again when called again, flag set or not.  Whatever [Cancel]
    reported, the next [ReadInput] returns the canceled error at once and
    leaves the signal byte in the channel: it makes no wait and no read. *)
Theorem Cancel_then_ReadInput (rs : selectInputReader.t) (re : epollInputReader.t)
    (write1 write2 : option error)
    (selects : list SelectAnswer) (epolls : list EpollAnswer)
    (sigread : option error) (dec : DecodeAnswer Msg) :
  let rs1 := fst (fst (selectInputReader.Cancel rs write1)) in
  let rs2 := fst (fst (selectInputReader.Cancel rs1 write2)) in
  let re1 := fst (fst (epollInputReader.Cancel re write1)) in
  let re2 := fst (fst (epollInputReader.Cancel re1 write2)) in
  (* what each call reports and does *)
  snd (fst (selectInputReader.Cancel rs write1)) = nil_error write1
  /\ snd (fst (epollInputReader.Cancel re write1)) = nil_error write1
  /\ snd (selectInputReader.Cancel rs write1)
     = [SysWrite (selectInputReader.cancelSignalWriter rs) "c"]
  /\ snd (selectInputReader.Cancel rs1 write2)
     = [SysWrite (selectInputReader.cancelSignalWriter rs) "c"]
  /\ snd (epollInputReader.Cancel re write1)
     = [SysWrite (epollInputReader.cancelSignalWriter re) "c"]
  /\ snd (epollInputReader.Cancel re1 write2)
     = [SysWrite (epollInputReader.cancelSignalWriter re) "c"]
  (* the flag, once and twice *)
  /\ rs2 = rs1 /\ re2 = re1
  /\ isCancelled (selectInputReader.cancel rs1) = true
  /\ isCancelled (epollInputReader.cancel re1) = true
  (* the next read *)
  /\ selectInputReader.ReadInput rs1 selects sigread dec
     = (Returned ([], Some errCanceled), [])
  /\ epollInputReader.ReadInput re1 epolls sigread dec
     = (Returned ([], Some errCanceled), []).
Proof.
  cbn zeta. repeat split; destruct write1; reflexivity.
Qed.

Lemma testbit_two_bits (a b x : Z) :
  0 <= a -> 0 <= b ->
  Z.testbit (Z.lor (Z.lor 0 (Z.shiftl 1 a)) (Z.shiftl 1 b)) x = (x =? a) || (x =? b).
Proof.
  intros Ha Hb. rewrite !Z.lor_spec, Z.bits_0, orb_false_l.
  rewrite !Z.shiftl_1_l, !Z.pow2_bits_eqb by assumption.
  rewrite (Z.eqb_sym a x), (Z.eqb_sym b x). reflexivity.
Qed.

(** X6.  With both descriptors below the ceiling and not negative, the wait
    of the select reader hands [select] the set holding exactly the target
    descriptor and the signal descriptor, and a count above both. *)
Theorem select_watches_both (reader abort : Z) (answer : option SelectAnswer)
    (Hr : 0 <= to_int reader < FD_SETSIZE)
    (Ha : 0 <= to_int abort < FD_SETSIZE) :
  exists nfd fds,
    snd (waitForRead reader abort answer) = [SysSelect nfd fds]
    /\ to_int reader < nfd /\ to_int abort < nfd /\ nfd <= FD_SETSIZE
    /\ forall fd, FdSet.IsSet fds fd = (fd =? to_int reader) || (fd =? to_int abort).
Proof.
  unfold waitForRead.
  set (maxFd := if to_int reader <? to_int abort then to_int abort else to_int reader).
  assert (Hm : to_int reader <= maxFd /\ to_int abort <= maxFd /\ maxFd < FD_SETSIZE).
  { unfold maxFd. destruct (to_int reader <? to_int abort) eqn:E;
      [apply Z.ltb_lt in E|apply Z.ltb_ge in E]; lia. }
  destruct (FD_SETSIZE <=? maxFd) eqn:E; [apply Z.leb_le in E; lia|].
  exists (maxFd + 1), (FdSet.Set_ (FdSet.Set_ FdSet.zero (to_int reader)) (to_int abort)).
  split.
  - destruct answer as [[n|ready]|]; try reflexivity.
    destruct (FdSet.IsSet ready (to_int abort)); [reflexivity|].
    destruct (FdSet.IsSet ready (to_int reader)); reflexivity.
  - repeat split; try lia.
    intros fd. unfold FdSet.IsSet, FdSet.Set_, FdSet.zero.
    apply testbit_two_bits; lia.
Qed.

(** X7.  [newInputReader] hands a stream that is not a file to the fallback
    constructor without any call.  For a file it returns its reader only
    when the epoll object, the pipe and both registrations succeeded, in
    that order; a failure to create the epoll object is returned wrapping
    its errno, a failure of the pipe as it is, and a failure of either
    registration as a fixed text that carries no errno. *)
Theorem newInputReader_outcome (reader : ioReader) (create : CreateAnswer)
    (pipe : PipeAnswer) (ctlFile ctlSignal : option Z) :
  match fst (newInputReader reader create pipe ctlFile ctlSignal) with
  | UseEpoll r =>
      reader = osFile (epollInputReader.file r)
      /\ create = CreateOk (epollInputReader.epoll r)
      /\ pipe = PipeOk (epollInputReader.cancelSignalReader r)
                       (epollInputReader.cancelSignalWriter r)
      /\ ctlFile = None /\ ctlSignal = None
      /\ isCancelled (epollInputReader.cancel r) = false
      /\ snd (newInputReader reader create pipe ctlFile ctlSignal)
         = [CallEpollCreate1 0; CallPipe;
            CallEpollCtlAdd (epollInputReader.epoll r)
              (to_int (epollInputReader.file r)) EPOLLIN
              (to_int32 (epollInputReader.file r));
            CallEpollCtlAdd (epollInputReader.epoll r)
              (to_int (epollInputReader.cancelSignalReader r)) EPOLLIN
              (to_int32 (epollInputReader.cancelSignalReader r))]
  | EpollFallback x =>
      reader = otherReader /\ x = otherReader
      /\ snd (newInputReader reader create pipe ctlFile ctlSignal) = []
  | EpollConstructErr e =>
      (exists n, create = CreateErr n /\ e = Errorf_w "create epoll: " (Errno n)
                 /\ errors_Is e (Errno n) = true)
      \/ (exists ep, create = CreateOk ep /\ pipe = PipeErr e)
      \/ (exists ep r w, create = CreateOk ep /\ pipe = PipeOk r w
            /\ (ctlFile <> None \/ ctlSignal <> None)
            /\ e = errorString "add reader to epoll interrest list"
            /\ forall n, errors_Is e (Errno n) = false)
  end.
Proof.
  destruct reader as [fd|]; [|cbn; auto].
  destruct create as [ep|n]; cbn.
  - destruct pipe as [r w|err]; cbn.
    + destruct ctlFile as [n1|]; cbn.
      * right. right. exists ep, r, w. repeat split; auto. left. discriminate.
      * destruct ctlSignal as [n2|]; cbn.
        -- right. right. exists ep, r, w. repeat split; auto. right. discriminate.
        -- repeat split.
    + right. left. exists ep. auto.
  - left. exists n. repeat split. unfold Errorf_w. cbn. rewrite Z.eqb_refl. reflexivity.
Qed.

Lemma to_int32_small (fd : Z) : 0 <= fd < 2 ^ 31 -> to_int32 fd = fd.
Proof.
  intros H. unfold to_int32. rewrite Z.mod_small by lia.
  destruct (fd <? 2 ^ 31) eqn:E; [reflexivity|]. apply Z.ltb_ge in E. lia.
Qed.

(** X8.  Registration and wait agree.  For a file and a pipe on two
    different descriptors below 2^31, [newInputReader] registers each
    descriptor under its own number, and the reader it returns takes an
    event carrying the file's number as data (it decodes) and an event
    carrying the pipe's number as cancellation (it reads the signal byte and
    returns the canceled error). *)
Theorem registration_and_wait_agree (fd ep rsig w : Z) (epolls : list EpollAnswer)
    (dec : DecodeAnswer Msg)
    (Hfd : 0 <= fd < 2 ^ 31) (Hsig : 0 <= rsig < 2 ^ 31) (Hne : fd <> rsig) :
  exists r,
    newInputReader (osFile fd) (CreateOk ep) (PipeOk rsig w) None None
    = (UseEpoll r,
       [CallEpollCreate1 0; CallPipe;
        CallEpollCtlAdd ep fd EPOLLIN fd; CallEpollCtlAdd ep rsig EPOLLIN rsig])
    /\ epollInputReader.ReadInput r (EpollOk fd :: epolls) None dec
       = (Returned match dec with
                   | DecodeOk msg => ([msg], None)
                   | DecodeErr err => ([], Some err)
                   end,
          [SysEpollWait ep; SysDecode fd])
    /\ epollInputReader.ReadInput r (EpollOk rsig :: epolls) None dec
       = (Returned ([], Some errCanceled), [SysEpollWait ep; SysRead rsig 1]).
Proof.
  eexists. split; [|split].
  - unfold newInputReader.
    rewrite (to_int32_small fd), (to_int32_small rsig) by assumption.
    rewrite (to_int_small fd), (to_int_small rsig) by lia.
    reflexivity.
  - unfold epollInputReader.ReadInput. cbn [isCancelled epollInputReader.cancel
      notCancelled unsafeCancelled epollInputReader.wait epollInputReader.epoll].
    unfold epollInputReader.switch.
    cbn [epollInputReader.file epollInputReader.cancelSignalReader].
    rewrite (to_int32_small fd) by assumption. rewrite Z.eqb_refl.
    destruct dec; reflexivity.
  - unfold epollInputReader.ReadInput. cbn [isCancelled epollInputReader.cancel
      notCancelled unsafeCancelled epollInputReader.wait epollInputReader.epoll].
    unfold epollInputReader.switch.
    cbn [epollInputReader.file epollInputReader.cancelSignalReader].
    rewrite (to_int32_small fd), (to_int32_small rsig) by assumption.
    assert (E : (rsig =? fd) = false) by (apply Z.eqb_neq; congruence).
    rewrite E, Z.eqb_refl. reflexivity.
Qed.

End ReaderMore.

(** * Further properties of [Start] *)

Section StartMore.

Variables (Key Model UserMsg : Type).
Implicit Types (p : Program Key Model UserMsg) (s : System Key Model UserMsg).

(** What a step does to what main does next. *)
Lemma step_next p s c l s' :
  step p s c = Some (l, s') ->
  match l with
  | LRecvErr _ err =>
      sys_ops s = [] /\ (exists model N, sys_next s = Wait model N)
      /\ sys_ops s' = [EvCloseDone; EvRestoreTerminal] /\ sys_next s' = Exit (Some err)
  | LRecvPump _ msg | LRecvCmd msg =>
      sys_ops s = [] /\
      exists model N, sys_next s = Wait model N
        /\ sys_ops s' = fst (turn p model N (RecvMsg msg))
        /\ sys_next s' = snd (turn p model N (RecvMsg msg))
  | LMain e =>
      sys_ops s = e :: sys_ops s' /\ sys_next s' = sys_next s
  | _ => sys_ops s' = sys_ops s /\ sys_next s' = sys_next s
  end.
Proof.
  intros Hs. destruct c; cbn [step] in Hs.
  - destruct (sys_ops s) as [|e rest] eqn:Eo; [discriminate|].
    destruct (main_op s e rest) as [s1|] eqn:E; [|discriminate].
    injection Hs as <- <-.
    apply main_op_fields in E as (Hops & Hnx & _). rewrite Hops. auto.
  - destruct (sys_ops s); [|discriminate].
    destruct (sys_next s) as [model N|] eqn:En; [|discriminate].
    destruct (sys_pump s) as [[|[i err|i msg] ops]|]; try discriminate;
      injection Hs as <- <-; cbn; eauto 8.
  - destruct (sys_ops s); [|discriminate].
    destruct (sys_next s) as [model N|] eqn:En; [|discriminate].
    destruct (take_nth n (sys_msg_senders s)) as [[msg others]|]; [|discriminate].
    injection Hs as <- <-. cbn. eauto 8.
  - destruct (sys_pump s) as [[|]|]; try discriminate.
    destruct (sys_reads s); [discriminate|].
    injection Hs as <- <-. cbn. auto.
  - destruct (sys_disp s); try discriminate.
    destruct (take_nth n (sys_cmd_senders s)) as [[cmd others]|]; [|discriminate].
    injection Hs as <- <-. cbn. auto.
  - destruct (sys_disp s); try discriminate.
    destruct (sys_done s); try discriminate.
    injection Hs as <- <-. cbn. auto.
Qed.

(** Once [Start] is returning it goes on returning. *)
Lemma run_exit p schedule : forall s ls s' err,
  sys_next s = Exit err -> run p s schedule = Some (ls, s') -> sys_next s' = Exit err.
Proof.
  induction schedule as [|c cs IH]; intros s ls s' err Hn Hrun; cbn [run] in Hrun.
  - injection Hrun as <- <-. exact Hn.
  - destruct (step p s c) as [[l s1]|] eqn:Es; [|discriminate].
    destruct (run p s1 cs) as [[ls1 s2]|] eqn:Er; [|discriminate].
    injection Hrun as <- <-.
    assert (Hn1 : sys_next s1 = sys_next s).
    { pose proof (step_next _ _ _ _ _ Es) as H.
      destruct l; try (destruct H as [_ H]; exact H).
      - destruct H as (_ & (model & N & Hw) & _). congruence.
      - destruct H as (_ & model & N & Hw & _). congruence.
      - destruct H as (_ & model & N & Hw & _). congruence. }
    apply (IH _ _ _ _ (eq_trans Hn1 Hn) Er).
Qed.

(** X9.  When [initTerminal] fails, [Start] returns that error and does
    nothing else: whatever the schedule, the only step there is is the call
    of [initTerminal]; [Init] is not called, nothing is painted, the
    terminal is not restored, no key is read and no goroutine is started. *)
Theorem terminal_setup_failure p (err : error) reads schedule labels s
    (Hrun : run p (boot p (Some err) reads) schedule = Some (labels, s)) :
  (labels = [] \/ (labels = [LMain EvInitTerminal] /\ returned s (Some err)))
  /\ sys_next s = Exit (Some err)
  /\ sys_pump s = None /\ sys_disp s = DispNotStarted /\ sys_done s = false
  /\ sys_reads s = reads /\ sys_cmd_senders s = [] /\ sys_msg_senders s = [].
Proof.
  destruct schedule as [|c [|c2 cs]]; cbn in Hrun.
  - injection Hrun as <- <-. cbn. auto 10.
  - destruct c; cbn in Hrun; try discriminate.
    injection Hrun as <- <-. cbn. unfold returned. cbn. auto 10.
  - destruct c; cbn in Hrun; try discriminate.
    destruct c2; cbn in Hrun; discriminate.
Qed.

(** A turn records the number of line feeds of the view it paints. *)
Lemma turn_lines p model (N : Z) (x : Received Key UserMsg) :
  N = Z.of_nat (newlines (view p model)) ->
  match snd (turn p model N x) with
  | Wait model' N' => N' = Z.of_nat (newlines (view p model'))
  | Exit _ => True
  end.
Proof.
  intros HN. destruct x as [err|msg]; [exact I|].
  destruct msg; cbn [turn]; try exact I; try exact HN;
    destruct (update p _ model) as [model' cmd]; cbn [render fst snd];
    rewrite Count_ReplaceAll; reflexivity.
Qed.

Lemma run_lines p schedule : forall s ls s',
  (forall model N, sys_next s = Wait model N -> N = Z.of_nat (newlines (view p model))) ->
  run p s schedule = Some (ls, s') ->
  forall model N, sys_next s' = Wait model N -> N = Z.of_nat (newlines (view p model)).
Proof.
  induction schedule as [|c cs IH]; intros s ls s' Hs Hrun; cbn [run] in Hrun.
  - injection Hrun as <- <-. exact Hs.
  - destruct (step p s c) as [[l s1]|] eqn:Es; [|discriminate].
    destruct (run p s1 cs) as [[ls1 s2]|] eqn:Er; [|discriminate].
    injection Hrun as <- <-.
    apply (IH s1 ls1 s2); [|exact Er].
    pose proof (step_next _ _ _ _ _ Es) as H.
    assert (Hrecv : forall msg model N,
              sys_next s = Wait model N ->
              sys_next s1 = snd (turn p model N (RecvMsg msg)) ->
              forall model' N', sys_next s1 = Wait model' N' ->
                                N' = Z.of_nat (newlines (view p model'))).
    { intros msg model N Hw Hn1 model' N' Hw'.
      pose proof (turn_lines p model N (RecvMsg msg) (Hs _ _ Hw)) as Ht.
      rewrite <- Hn1, Hw' in Ht. exact Ht. }
    destruct l; try (destruct H as [_ H]; rewrite H; exact Hs).
    + destruct H as (_ & _ & _ & Hn1). intros model N Hw. congruence.
    + destruct H as (_ & model & N & Hw & _ & Hn1). exact (Hrecv _ _ _ Hw Hn1).
    + destruct H as (_ & model & N & Hw & _ & Hn1). exact (Hrecv _ _ _ Hw Hn1).
Qed.

(** X10.  In every run of [Start], whenever main is to wait at its select
    the recorded line count is the number of line feeds of the view of the
    current model, which is the view last painted. *)
Theorem recorded_lines_match_view p term reads schedule labels s model (N : Z)
    (Hrun : run p (boot p term reads) schedule = Some (labels, s))
    (Hwait : sys_next s = Wait model N) :
  N = Z.of_nat (newlines (view p model)).
Proof.
  refine (run_lines p schedule _ _ _ _ Hrun model N Hwait).
  intros model0 N0. unfold boot, start. cbn [sys_next].
  destruct term as [err|]; [discriminate|].
  destruct (init p tt) as [m cmd]. cbn [render fst snd].
  intros [= <- <-]. rewrite Count_ReplaceAll. reflexivity.
Qed.

Lemma run_applied p schedule : forall s ls s' model0 N0 model N,
  sys_next s = Wait model0 N0 ->
  run p s schedule = Some (ls, s') ->
  sys_next s' = Wait model N ->
  model = apply_received p ls model0.
Proof.
  induction schedule as [|c cs IH]; intros s ls s' model0 N0 model N Hs Hrun Hw;
    cbn [run] in Hrun.
  - injection Hrun as <- <-. cbn. congruence.
  - destruct (step p s c) as [[l s1]|] eqn:Es; [|discriminate].
    destruct (run p s1 cs) as [[ls1 s2]|] eqn:Er; [|discriminate].
    injection Hrun as <- <-.
    pose proof (step_next _ _ _ _ _ Es) as H.
    assert (Hrecv : forall msg,
              sys_next s1 = snd (turn p model0 N0 (RecvMsg msg)) ->
              model = apply_received p ls1
                        match msg with
                        | quitMsg | batchMsg _ => model0
                        | _ => fst (update p msg model0)
                        end).
    { intros msg Hn1.
      destruct msg; cbn [turn snd] in Hn1;
        try (destruct (update p _ model0) as [model' cmd] eqn:Eu;
             destruct (render p model' N0) as [n paint]; cbn [fst snd] in *;
             exact (IH _ _ _ _ _ _ _ Hn1 Er Hw)).
      - pose proof (run_exit _ _ _ _ _ _ Hn1 Er). congruence.
      - exact (IH _ _ _ _ _ _ _ Hn1 Er Hw). }
    destruct l; cbn [apply_received];
      try (destruct H as [_ H]; rewrite Hs in H; exact (IH _ _ _ _ _ _ _ H Er Hw)).
    + destruct H as (_ & _ & _ & Hn1).
      pose proof (run_exit _ _ _ _ _ _ Hn1 Er). congruence.
    + destruct H as (_ & m & n & Hw0 & _ & Hn1).
      rewrite Hs in Hw0. injection Hw0 as <- <-. exact (Hrecv _ Hn1).
    + destruct H as (_ & m & n & Hw0 & _ & Hn1).
      rewrite Hs in Hw0. injection Hw0 as <- <-. exact (Hrecv _ Hn1).
Qed.

(** X11.  In every run of [Start], the model main holds at its select is
    the model of [Init] with [Update] applied once for each ordinary message
    main received, in the order of receipt; batch messages leave it as it
    is. *)
Theorem model_is_fold_of_updates p reads schedule labels s model (N : Z)
    (Hrun : run p (boot p None reads) schedule = Some (labels, s))
    (Hwait : sys_next s = Wait model N) :
  model = apply_received p labels (fst (init p tt)).
Proof.
  assert (exists N0, sys_next (boot p None reads) = Wait (fst (init p tt)) N0)
    as [N0 H0].
  { unfold boot, start. cbn [sys_next].
    destruct (init p tt) as [m cmd]. cbn [render fst snd]. eexists. reflexivity. }
  exact (run_applied p schedule _ _ _ _ _ _ _ H0 Hrun Hwait).
Qed.

Lemma take_nth_last {A : Type} (l : list A) (x : A) :
  take_nth (List.length l) (l ++ [x]) = Some (x, l).
Proof.
  induction l as [|a l IH]; [reflexivity|].
  cbn [List.length app take_nth]. rewrite IH. reflexivity.
Qed.

(** Sending on [cmds] leaves the goroutines blocked on [cmds] alone. *)
Lemma sends_keep_cmd_senders p : forall (cmds : list (Cmd Key UserMsg)) s ls s',
  sys_ops s = List.map EvSendCmd cmds ->
  run p s (repeat ChMain (List.length cmds)) = Some (ls, s') ->
  sys_cmd_senders s' = sys_cmd_senders s.
Proof.
  induction cmds as [|cmd cmds IH]; intros s ls s' Hops Hrun.
  - cbn in Hrun. injection Hrun as <- <-. reflexivity.
  - cbn [List.length repeat run step List.map] in Hrun, Hops. rewrite Hops in Hrun.
    unfold main_op in Hrun. cbn [set_main sys_disp fst snd] in Hrun.
    destruct (sys_disp s); try discriminate.
    match type of Hrun with
    | context [run p ?t _] => destruct (run p t _) as [[ls1 s1]|] eqn:Er; [|discriminate]
    end.
    injection Hrun as <- <-.
    apply IH in Er; [|reflexivity]. exact Er.
Qed.

(** X12.  [Batch] and the loop compose.  When the dispatcher takes the
    command [Batch cmds]: with no command in it nothing is started and
    nothing reaches main; otherwise main receives one batch message and
    sends the commands on [cmds] in their order, so that at the end there
    is one goroutine for each command of the batch that is not nil, in the
    order of the batch, and main is back at its select with its model. *)
Theorem Batch_is_expanded p s (n : nat) (others : list (Cmd Key UserMsg))
    (cmds : list (Cmd Key UserMsg)) (model : Model) (N : Z)
    (Hops : sys_ops s = [])
    (Hnext : sys_next s = Wait model N)
    (Hdisp : sys_disp s = DispRunning)
    (Hcmd : take_nth n (sys_cmd_senders s) = Some (Batch cmds, others)) :
  let schedule :=
    ChDispatch n ::
      match cmds with
      | [] => []
      | _ => ChRecvCmd (List.length (sys_msg_senders s))
               :: repeat ChMain (List.length cmds)
      end in
  let labels :=
    LDispatch (Batch cmds) ::
      match cmds with
      | [] => []
      | _ => LRecvCmd (batchMsg cmds)
               :: List.map (fun cmd => LMain (EvSendCmd cmd)) cmds
      end in
  exists s',
    run p s schedule = Some (labels, s')
    /\ sys_ops s' = [] /\ sys_next s' = Wait model N
    /\ sys_cmd_senders s' = others
    /\ sys_msg_senders s' = (sys_msg_senders s ++ flat_map dispatch cmds)%list.
Proof.
  cbn zeta. cbn [run step]. rewrite Hdisp, Hcmd.
  destruct cmds as [|cmd cmds].
  - cbn [Batch List.length Nat.eqb dispatch run flat_map].
    eexists. split; [reflexivity|]. cbn. rewrite app_nil_r. auto.
  - remember (cmd :: cmds) as batch eqn:Eb.
    assert (HB : Batch batch = Some (fun _ => batchMsg batch)) by (subst; reflexivity).
    rewrite HB. cbn [dispatch run step].
    cbn [set_msg_senders set_cmd_senders sys_ops sys_next sys_msg_senders].
    rewrite Hops, Hnext, take_nth_last. cbn [turn].
    match goal with
    | |- context [run p ?t _] =>
        destruct (send_all _ _ _ p batch t) as (s' & Hr & Ho & Hn & Hm)
    end; [reflexivity|exact Hdisp|].
    rewrite Hr. cbn in Hn, Hm.
    exists s'. split; [subst batch; reflexivity|].
    split; [exact Ho|]. split; [exact Hn|]. split; [|exact Hm].
    apply sends_keep_cmd_senders in Hr; [exact Hr|reflexivity].
Qed.

Lemma pump_starts_turn p model (N : Z) (x : Received Key UserMsg) :
  pump_starts (fst (turn p model N x)) = 0%nat.
Proof.
  destruct x as [err|msg]; [reflexivity|].
  destruct msg; cbn [turn]; try reflexivity;
    try (destruct (update p _ model) as [model' cmd]; cbn [render fst snd];
         destruct (0 <? N); reflexivity).
  induction cmds as [|c cmds IH]; [reflexivity|exact IH].
Qed.

Lemma step_pump_once p s c l s' :
  pump_once s -> step p s c = Some (l, s') -> pump_once s'.
Proof.
  unfold pump_once. intros HG Hs.
  destruct c; cbn [step] in Hs.
  - destruct (sys_ops s) as [|e rest] eqn:Eo; [discriminate|].
    destruct (main_op s e rest) as [s1|] eqn:E; [|discriminate].
    injection Hs as <- <-.
    unfold main_op in E.
    destruct e as [ | | | [cmd| | ] | | cmd | | | ];
      try (injection E as <-; cbn in *; destruct (sys_pump s); lia).
    cbn [set_main sys_disp] in E. destruct (sys_disp s); try discriminate.
    injection E as <-. cbn in *. destruct (sys_pump s); lia.
  - destruct (sys_ops s); [|discriminate].
    destruct (sys_next s) as [model N|] eqn:En; [|discriminate].
    destruct (sys_pump s) as [[|[i err|i msg] ops]|]; try discriminate;
      injection Hs as <- <-;
      cbn [sys_pump sys_ops set_main set_pump].
    + exact (pump_starts_turn p model N (RecvErr err)).
    + exact (pump_starts_turn p model N (RecvMsg msg)).
  - destruct (sys_ops s); [|discriminate].
    destruct (sys_next s) as [model N|] eqn:En; [|discriminate].
    destruct (take_nth n (sys_msg_senders s)) as [[msg others]|]; [|discriminate].
    injection Hs as <- <-.
    change (match sys_pump s with
            | None => (pump_starts (fst (turn p model N (RecvMsg msg))) <= 1)%nat
            | Some _ => pump_starts (fst (turn p model N (RecvMsg msg))) = 0%nat
            end).
    rewrite pump_starts_turn. destruct (sys_pump s); lia.
  - destruct (sys_pump s) as [[|]|]; try discriminate.
    destruct (sys_reads s); [discriminate|].
    injection Hs as <- <-. cbn. exact HG.
  - destruct (sys_disp s); try discriminate.
    destruct (take_nth n (sys_cmd_senders s)) as [[cmd others]|]; [|discriminate].
    injection Hs as <- <-. cbn. exact HG.
  - destruct (sys_disp s); try discriminate.
    destruct (sys_done s); try discriminate.
    injection Hs as <- <-. cbn. exact HG.
Qed.

Lemma run_pump_once p schedule : forall s ls s',
  pump_once s -> run p s schedule = Some (ls, s') -> pump_once s'.
Proof.
  induction schedule as [|c cs IH]; intros s ls s' HG Hrun; cbn [run] in Hrun.
  - injection Hrun as <- <-. exact HG.
  - destruct (step p s c) as [[l s1]|] eqn:Es; [|discriminate].
    destruct (run p s1 cs) as [[ls1 s2]|] eqn:Er; [|discriminate].
    injection Hrun as <- <-.
    exact (IH _ _ _ (step_pump_once _ _ _ _ _ HG Es) Er).
Qed.

Lemma pump_once_boot p term reads : pump_once (boot p term reads).
Proof.
  unfold pump_once, boot, start. cbn [sys_pump sys_ops].
  destruct term as [err|]; [cbn; lia|].
  destruct (init p tt) as [model cmd]. cbn [render fst snd].
  destruct cmd; cbn; lia.
Qed.

Lemma step_pump_stuck p s c l s' :
  pump_once s -> pump_stuck s -> step p s c = Some (l, s') ->
  pump_stuck s' /\ ~ is_read l.
Proof.
  unfold pump_once, pump_stuck. intros HG Hst Hs.
  destruct c; cbn [step] in Hs.
  - destruct (sys_ops s) as [|e rest] eqn:Eo; [discriminate|].
    destruct (main_op s e rest) as [s1|] eqn:E; [|discriminate].
    injection Hs as <- <-. split; [|exact (fun H => H)].
    destruct (sys_pump s) as [ops|] eqn:Ep; [|contradiction].
    pose proof (main_op_fields _ _ _ _ _ _ _ E) as (_ & Hnx & _ & _ & Hpu).
    rewrite Hnx.
    destruct Hpu as [-> | Hreset]; [rewrite Ep; exact Hst|].
    exfalso. unfold main_op in E.
    destruct e as [ | | | [cmd| | ] | | cmd | | | ];
      try (injection E as <-; cbn in Hreset; rewrite Ep in Hreset;
           injection Hreset as ->; exact Hst).
    + cbn in HG. discriminate.
    + cbn [set_main sys_disp] in E. destruct (sys_disp s); try discriminate.
      injection E as <-. cbn in Hreset. rewrite Ep in Hreset.
      injection Hreset as ->. exact Hst.
  - destruct (sys_ops s); [|discriminate].
    destruct (sys_next s) as [model N|] eqn:En; [|discriminate].
    destruct (sys_pump s) as [[|[i err|i msg] ops]|]; try discriminate;
      injection Hs as <- <-; cbn.
    + destruct ops as [|[j e|j m] [|]]; try contradiction.
      split; [eauto|exact (fun H => H)].
    + destruct ops; [|contradiction]. destruct Hst as [e He]. discriminate.
  - destruct (sys_ops s); [|discriminate].
    destruct (sys_next s) as [model N|] eqn:En; [|discriminate].
    destruct (take_nth n (sys_msg_senders s)) as [[msg others]|]; [|discriminate].
    injection Hs as <- <-. cbn. split; [|exact (fun H => H)].
    destruct (sys_pump s) as [[|[i e|i m] [|[j e'|j m'] [|]]]|]; try contradiction.
    + exact I.
    + destruct Hst as [e He]. discriminate.
  - destruct (sys_pump s) as [[|]|]; try discriminate; contradiction.
  - destruct (sys_disp s); try discriminate.
    destruct (take_nth n (sys_cmd_senders s)) as [[cmd others]|]; [|discriminate].
    injection Hs as <- <-. cbn. split; [exact Hst|exact (fun H => H)].
  - destruct (sys_disp s); try discriminate.
    destruct (sys_done s); try discriminate.
    injection Hs as <- <-. cbn. split; [exact Hst|exact (fun H => H)].
Qed.

Lemma run_pump_stuck p schedule : forall s ls s',
  pump_once s -> pump_stuck s -> run p s schedule = Some (ls, s') ->
  pump_stuck s' /\ Forall (fun l => ~ is_read l) ls.
Proof.
  induction schedule as [|c cs IH]; intros s ls s' HG Hst Hrun; cbn [run] in Hrun.
  - injection Hrun as <- <-. auto.
  - destruct (step p s c) as [[l s1]|] eqn:Es; [|discriminate].
    destruct (run p s1 cs) as [[ls1 s2]|] eqn:Er; [|discriminate].
    injection Hrun as <- <-.
    destruct (step_pump_stuck _ _ _ _ _ HG Hst Es) as [Hst1 Hl].
    destruct (IH _ _ _ (step_pump_once _ _ _ _ _ HG Es) Hst1 Er) as [Hst2 Hls].
    auto.
Qed.

(** X13.  A read that fails is the pump's last.  In every run of [Start],
    whatever the schedule, after a [ReadKey] that returned an error the
    pump never calls [ReadKey] again: it stays blocked in the send of the
    error or, once main has taken the error and is returning, in the send
    of that read's message, which nobody receives. *)
Theorem failed_read_is_last p term reads schedule before i k (err : error) after s
    (Hrun : run p (boot p term reads) schedule
            = Some ((before ++ LRead i (k, Some err) :: after)%list, s)) :
  Forall (fun l => ~ is_read l) after /\ pump_stuck s.
Proof.
  destruct (run_split _ _ _ _ _ _ _ _ _ _ Hrun)
    as (sc1 & c & sc2 & s1 & s2 & H1 & H2 & H3).
  pose proof (run_pump_once _ _ _ _ _ (pump_once_boot p term reads) H1) as HG1.
  pose proof (step_pump_once _ _ _ _ _ HG1 H2) as HG2.
  assert (Hst : pump_stuck s2).
  { destruct c; cbn [step] in H2.
    - destruct (sys_ops s1) as [|e rest]; [discriminate|].
      destruct (main_op s1 e rest); discriminate.
    - destruct (sys_ops s1); [|discriminate].
      destruct (sys_next s1); [|discriminate].
      destruct (sys_pump s1) as [[|[? ?|? ?] ?]|]; discriminate.
    - destruct (sys_ops s1); [|discriminate].
      destruct (sys_next s1); [|discriminate].
      destruct (take_nth n (sys_msg_senders s1)) as [[? ?]|]; discriminate.
    - destruct (sys_pump s1) as [[|]|]; try discriminate.
      destruct (sys_reads s1) as [|answer rest]; [discriminate|].
      injection H2 as _ -> <-. unfold pump_stuck. cbn. exact I.
    - destruct (sys_disp s1); try discriminate.
      destruct (take_nth n (sys_cmd_senders s1)) as [[? ?]|]; discriminate.
    - destruct (sys_disp s1); try discriminate.
      destruct (sys_done s1); discriminate. }
  destruct (run_pump_stuck _ _ _ _ _ HG2 Hst H3) as [Hst' Hls]. auto.
Qed.

Lemma turn_ready p model (N : Z) (x : Received Key UserMsg) :
  match snd (turn p model N x) with
  | Wait _ _ => ~ In EvCloseDone (fst (turn p model N x))
  | Exit _ => Forall leaving (fst (turn p model N x))
  end.
Proof.
  destruct x as [err|msg]; [repeat constructor|].
  destruct msg; cbn [turn]; try (repeat constructor; fail);
    try (destruct (update p _ model) as [model' cmd]; cbn [render fst snd];
         destruct (0 <? N); cbn; intros H; intuition discriminate).
  cbn [fst snd]. rewrite in_map_iff. intros [c [Hc _]]. discriminate.
Qed.

Lemma dispatcher_ready_boot p term reads : dispatcher_ready (boot p term reads).
Proof.
  unfold dispatcher_ready, boot, start. cbn [sys_next sys_ops sys_disp sys_done].
  destruct term as [err|]; cbn [fst snd].
  - split; [repeat constructor|]. split; [discriminate|]. intros _. left. eauto.
  - destruct (init p tt) as [model cmd]. cbn [render fst snd Z.ltb Z.compare].
    split; [|split; [discriminate|]].
    + split; [|reflexivity]. destruct cmd; cbn; intros H; intuition discriminate.
    + intros _. right. split.
      * destruct cmd; cbn; auto 10.
      * destruct cmd; repeat constructor.
Qed.

Lemma step_dispatcher_ready p s c l s' :
  dispatcher_ready s -> step p s c = Some (l, s') -> dispatcher_ready s'.
Proof.
  unfold dispatcher_ready. intros (HA & HB & HC) Hs.
  destruct c; unfold step in Hs.
  - destruct (sys_ops s) as [|e rest] eqn:Eo; [discriminate|].
    destruct (main_op s e rest) as [s1|] eqn:E; [|discriminate].
    injection Hs as <- <-. unfold main_op in E.
    assert (HA' : match sys_next s with
                  | Wait _ _ => ~ In EvCloseDone rest /\ sys_done s = false
                                /\ e <> EvCloseDone
                  | Exit _ => Forall leaving rest
                  end).
    { destruct (sys_next s).
      - destruct HA as [Hin Hd]. split; [|split; [exact Hd|]].
        + intros H. apply Hin. right. exact H.
        + intros ->. apply Hin. left. reflexivity.
      - inversion HA. assumption. }
    assert (HC' : sys_disp s = DispNotStarted -> e <> EvGo GoDispatcher ->
                  (exists err, sys_next s = Exit err)
                  \/ (In (EvGo GoDispatcher) rest /\ Forall no_send rest)).
    { intros Hd Hne. destruct (HC Hd) as [Hex | [Hin Hall]]; [left; exact Hex|].
      right. destruct Hin as [-> | Hin]; [contradiction|].
      inversion Hall. auto. }
    destruct e as [ | | | [cmd| | ] | | cmd | | | ];
      try (injection E as <-; cbn [set_main set_cmd_senders set_pump set_disp
             sys_next sys_ops sys_done sys_disp fst snd];
           split; [destruct (sys_next s); tauto|];
           split; [first [exact HB | discriminate]|];
           first [ intros Hd; apply (HC' Hd); discriminate | discriminate ]).
    + (* cmds <- cmd *)
      cbn [set_main sys_disp] in E. destruct (sys_disp s) eqn:Ed; try discriminate.
      injection E as <-. cbn [set_main set_msg_senders sys_next sys_ops sys_done
                                sys_disp fst snd].
      rewrite Ed. split; [destruct (sys_next s); tauto|].
      split; discriminate.
    + (* close(done) *)
      injection E as <-. cbn [set_main sys_next sys_ops sys_done sys_disp fst snd].
      split; [|split; [reflexivity|]].
      * destruct (sys_next s); [|exact HA'].
        destruct HA' as (_ & _ & H). contradiction.
      * intros Hd. apply (HC' Hd). discriminate.
  - destruct (sys_ops s) eqn:Eo; [|discriminate].
    destruct (sys_next s) as [model N|] eqn:En; [|discriminate].
    destruct HA as [_ Hd].
    assert (Hns : sys_disp s <> DispNotStarted).
    { intros H. destruct (HC H) as [[e He] | [[] _]]. discriminate. }
    destruct (sys_pump s) as [[|[i err|i msg] ops]|]; try discriminate.
    + pose proof (turn_ready p model N (RecvErr err)) as Ht.
      remember (turn p model N (RecvErr err)) as t eqn:Et.
      injection Hs as <- <-.
      cbn [set_main set_pump sys_next sys_ops sys_done sys_disp].
      split; [|split; [exact HB|intros H; contradiction]].
      destruct (snd t); auto.
    + pose proof (turn_ready p model N (RecvMsg msg)) as Ht.
      remember (turn p model N (RecvMsg msg)) as t eqn:Et.
      injection Hs as <- <-.
      cbn [set_main set_pump sys_next sys_ops sys_done sys_disp].
      split; [|split; [exact HB|intros H; contradiction]].
      destruct (snd t); auto.
  - destruct (sys_ops s) eqn:Eo; [|discriminate].
    destruct (sys_next s) as [model N|] eqn:En; [|discriminate].
    destruct HA as [_ Hd].
    assert (Hns : sys_disp s <> DispNotStarted).
    { intros H. destruct (HC H) as [[e He] | [[] _]]. discriminate. }
    destruct (take_nth n (sys_msg_senders s)) as [[msg others]|]; [|discriminate].
    pose proof (turn_ready p model N (RecvMsg msg)) as Ht.
    remember (turn p model N (RecvMsg msg)) as t eqn:Et.
    injection Hs as <- <-.
    cbn [set_main set_msg_senders sys_next sys_ops sys_done sys_disp].
    split; [|split; [exact HB|intros H; contradiction]].
    destruct (snd t); auto.
  - destruct (sys_pump s) as [[|]|]; try discriminate.
    destruct (sys_reads s); [discriminate|].
    injection Hs as <- <-. cbn. auto.
  - destruct (sys_disp s) eqn:Ed; try discriminate.
    destruct (take_nth n (sys_cmd_senders s)) as [[cmd others]|]; [|discriminate].
    injection Hs as <- <-. cbn. rewrite Ed. auto.
  - destruct (sys_disp s) eqn:Ed; try discriminate.
    destruct (sys_done s) eqn:Edone; try discriminate.
    injection Hs as <- <-. cbn. rewrite Edone.
    split; [exact HA|]. split; [reflexivity|discriminate].
Qed.

Lemma run_dispatcher_ready p schedule : forall s ls s',
  dispatcher_ready s -> run p s schedule = Some (ls, s') -> dispatcher_ready s'.
Proof.
  induction schedule as [|c cs IH]; intros s ls s' HD Hrun; cbn [run] in Hrun.
  - injection Hrun as <- <-. exact HD.
  - destruct (step p s c) as [[l s1]|] eqn:Es; [|discriminate].
    destruct (run p s1 cs) as [[ls1 s2]|] eqn:Er; [|discriminate].
    injection Hrun as <- <-.
    exact (IH _ _ _ (step_dispatcher_ready _ _ _ _ _ HD Es) Er).
Qed.

(** X14.  [Start]'s own goroutine blocks only at its select.  In every run
    of [Start], whatever the schedule, whenever main has an operation left
    to do it can do it: in particular, when it is to send a command on
    [cmds] the dispatcher has been started and has not returned, so the
    send is taken. *)
Theorem main_is_never_stuck p term reads schedule labels s e rest
    (Hrun : run p (boot p term reads) schedule = Some (labels, s))
    (Hops : sys_ops s = e :: rest) :
  (exists s', step p s ChMain = Some (LMain e, s') /\ sys_ops s' = rest)
  /\ (forall cmd, e = EvSendCmd cmd -> sys_disp s = DispRunning /\ sys_done s = false).
Proof.
  pose proof (run_dispatcher_ready _ _ _ _ _ (dispatcher_ready_boot p term reads) Hrun)
    as (HA & HB & HC).
  assert (Hsend : forall cmd, e = EvSendCmd cmd ->
                              sys_disp s = DispRunning /\ sys_done s = false).
  { intros cmd ->. rewrite Hops in HA, HC.
    destruct (sys_next s) as [model N|] eqn:En.
    - destruct HA as [_ Hd]. split; [|exact Hd].
      destruct (sys_disp s) eqn:Ed; [|reflexivity|].
      + destruct (HC eq_refl) as [[err He] | [_ Hall]]; [discriminate|].
        inversion Hall as [|? ? Hns]. contradiction.
      + rewrite (HB eq_refl) in Hd. discriminate.
    - inversion HA as [|? ? Hl]. contradiction. }
  split; [|exact Hsend].
  cbn [step]. rewrite Hops.
  destruct (main_op s e rest) as [s1|] eqn:E.
  - exists s1. split; [reflexivity|].
    apply main_op_fields in E as (Ho & _). exact Ho.
  - exfalso. unfold main_op in E.
    destruct e as [ | | | [cmd| | ] | | cmd | | | ]; try discriminate.
    cbn [set_main sys_disp] in E.
    destruct (Hsend cmd eq_refl) as [Hd _]. rewrite Hd in E. discriminate.
Qed.

End StartMore.

(** * Further properties of the renderer and the timers *)

Section RenderMore.

Variables (Key Model UserMsg : Type).
Implicit Types (p : Program Key Model UserMsg) (model : Model).

Lemma ReplaceAll_no_bare_LF (v : string) : forall after_CR,
  no_bare_LF after_CR (strings.ReplaceAll v nl crnl) = true.
Proof.
  induction v as [|c v IH]; intros b; [reflexivity|].
  rewrite ReplaceAll_cons. destruct (Ascii.eqb c LF) eqn:E.
  - cbn [no_bare_LF]. rewrite IH. reflexivity.
  - cbn [no_bare_LF]. rewrite E, IH. reflexivity.
Qed.

Lemma ReplaceAll_length (v : string) :
  String.length (strings.ReplaceAll v nl crnl) = (String.length v + newlines v)%nat.
Proof.
  induction v as [|c v IH]; [reflexivity|].
  rewrite ReplaceAll_cons. cbn [newlines]. destruct (Ascii.eqb c LF);
    cbn [String.length]; rewrite IH; lia.
Qed.

Lemma ReplaceAll_without_LF (v : string) :
  newlines v = 0%nat -> strings.ReplaceAll v nl crnl = v.
Proof.
  induction v as [|c v IH]; [reflexivity|].
  rewrite ReplaceAll_cons. cbn [newlines].
  destruct (Ascii.eqb c LF); [discriminate|].
  intros H. rewrite IH by exact H. reflexivity.
Qed.

(** X15.  What a repaint writes has no line feed without a carriage return
    right before it, whatever the view, and is longer than the view by one
    byte for each line feed of the view. *)
Theorem render_writes_CRLF p model (N : Z) :
  exists text,
    snd (render p model N)
      = ((if 0 <? N then [EvClearLines N] else []) ++ [EvWrite text])%list
    /\ no_bare_LF false text = true
    /\ String.length text = (String.length (view p model) + newlines (view p model))%nat.
Proof.
  exists (strings.ReplaceAll (view p model) nl crnl).
  split; [reflexivity|]. split; [apply ReplaceAll_no_bare_LF|].
  apply ReplaceAll_length.
Qed.

(** X16.  A view without a line feed is written as it is and counts as no
    line: the repaint that follows erases nothing, so the new view is
    written on the line where the old one stands. *)
Theorem view_without_line_feed p model model' (N : Z)
    (Hview : newlines (view p model) = 0%nat) :
  snd (render p model N)
    = ((if 0 <? N then [EvClearLines N] else []) ++ [EvWrite (view p model)])%list
  /\ fst (render p model N) = 0
  /\ snd (render p model' (fst (render p model N)))
     = [EvWrite (strings.ReplaceAll (view p model') nl crnl)].
Proof.
  unfold render. cbn [fst snd].
  rewrite Count_ReplaceAll, Hview, (ReplaceAll_without_LF _ Hview).
  repeat split.
Qed.

End RenderMore.

Section TimersMore.

Variable Msg : Type.

(** X17.  The command of [Every] waits to the next multiple of the duration
    (counted from the zero time) that lies after the time at which it is
    run: for a positive duration the timer is set for more than nothing and
    at most the duration, it ends on a multiple of the duration, no multiple
    lies between, and it is the whole duration exactly when the command is
    run on a multiple.  The message is [fn] of the time the timer
    delivers.  For a duration that is not positive the timer is set for
    that duration.  [Tick]'s timer is set for its duration whatever the
    clock. *)
Theorem Every_waits_to_boundary (duration : Z) (fn : Z -> Msg) (n : Z)
    (fire : Z -> Z) (Hd : 0 < duration) :
  let d := fst (Every duration fn n fire) in
  0 < d <= duration
  /\ (n + d) mod duration = 0
  /\ (forall t, n < t -> t mod duration = 0 -> n + d <= t)
  /\ (d = duration <-> n mod duration = 0)
  /\ snd (Every duration fn n fire) = fn (fire d)
  /\ (forall nonpos, nonpos <= 0 -> fst (Every nonpos fn n fire) = nonpos)
  /\ fst (Tick duration fn fire) = duration.
Proof.
  cbn zeta. unfold Every, Tick, time.Sub, time.Add, time.Truncate. cbn [fst snd].
  destruct (duration <=? 0) eqn:E; [apply Z.leb_le in E; lia|].
  pose proof (Z.mod_pos_bound n duration Hd) as Hm.
  pose proof (Z.div_mod n duration ltac:(lia)) as Hdm.
  split; [lia|]. split.
  - replace (n + (n - n mod duration + duration - n))
      with ((n / duration + 1) * duration) by lia.
    apply Z.mod_mul. lia.
  - split.
    + intros t Hlt Ht.
      pose proof (Z.div_mod t duration ltac:(lia)) as Htm. rewrite Ht in Htm.
      assert (n / duration < t / duration) by nia. nia.
    + split; [lia|]. split; [reflexivity|]. split; [|reflexivity].
      intros nonpos Hn. destruct (nonpos <=? 0) eqn:E'; [lia|].
      apply Z.leb_gt in E'. lia.
Qed.

End TimersMore.

(** * Properties of the example program *)

Section TextinputsProps.

Context {Key UserMsg InputRest : Type} {I : textinputs.Imports Key UserMsg InputRest}.
Implicit Types (m : textinputs.Model InputRest) (k : Key).

(** [render] on the example's program. *)
Lemma render_example m (N : Z) :
  render textinputs.program m N
  = (Z.of_nat (strings.Count (strings.ReplaceAll (textinputs.view m) nl crnl) crnl),
     ((if 0 <? N then [EvClearLines N] else [])
        ++ [EvWrite (strings.ReplaceAll (textinputs.view m) nl crnl)])%list).
Proof. reflexivity. Qed.

Lemma string_app_assoc (a b c : string) : (a ++ b) ++ c = a ++ (b ++ c).
Proof.
  induction a as [|x a IH]; [reflexivity|].
  cbn [append]. rewrite IH. reflexivity.
Qed.

Import textinputs.

Lemma cycles_cases (s : string) :
  cycles s = true ->
  s = "tab" \/ s = "shift+tab" \/ s = "enter" \/ s = "up" \/ s = "down".
Proof.
  unfold cycles. rewrite !orb_true_iff, !String.eqb_eq. tauto.
Qed.

Lemma to_int_range (x : Z) : - 2 ^ 63 <= to_int x < 2 ^ 63.
Proof.
  unfold to_int. pose proof (Z.mod_pos_bound x (2 ^ 64) ltac:(lia)) as H.
  destruct (x mod 2 ^ 64 <? 2 ^ 63) eqn:E;
    [apply Z.ltb_lt in E|apply Z.ltb_ge in E]; lia.
Qed.

Lemma to_int_id (x : Z) : - 2 ^ 63 <= x < 2 ^ 63 -> to_int x = x.
Proof.
  intros H. destruct (Z_lt_le_dec x 0) as [Hneg|Hpos].
  - unfold to_int.
    assert (Hm : x mod 2 ^ 64 = x + 2 ^ 64).
    { symmetry. apply (Z.mod_unique x (2 ^ 64) (-1)); lia. }
    rewrite Hm. destruct (x + 2 ^ 64 <? 2 ^ 63) eqn:E;
      [apply Z.ltb_lt in E|]; lia.
  - apply to_int_small. lia.
Qed.

Lemma update_cycles k m :
  cycles (KeyString k) = true ->
  ~ (KeyString k = "enter" /\ index m = 3) ->
  update (KeyMsg k) m
  = (let idx := moved (KeyString k) (index m) in
     let inputs := restyle idx 0 [nameInput m; nickNameInput m; emailInput m] in
     {| index := idx;
        nameInput := nth 0 inputs (nameInput m);
        nickNameInput := nth 1 inputs (nickNameInput m);
        emailInput := nth 2 inputs (emailInput m);
        submitButton := if idx =? 3 then focusedSubmitButton else blurredSubmitButton |},
     None).
Proof.
  intros Hc Hnq. unfold update. rewrite Hc.
  assert (Hcc : String.eqb (KeyString k) "ctrl+c" = false).
  { destruct (cycles_cases _ Hc) as [-> | [-> | [-> | [-> | ->]]]]; reflexivity. }
  rewrite Hcc.
  assert (Hq : String.eqb (KeyString k) "enter" && (index m =? 3) = false).
  { destruct (String.eqb (KeyString k) "enter") eqn:E1; [|reflexivity].
    destruct (index m =? 3) eqn:E2; [|reflexivity].
    exfalso. apply Hnq. split; [apply String.eqb_eq|apply Z.eqb_eq]; assumption. }
  cbn [List.length Z.of_nat Pos.of_succ_nat Pos.succ].
  rewrite Hq. reflexivity.
Qed.

(** X18.  A key that moves the focus ("tab", "shift+tab", "enter", "up",
    "down", unless it is "enter" on the submit button) leaves the index
    among the four places 0 to 3, whatever it was, and asks for no command;
    from a place among the four, "up" and "shift+tab" go one place back and
    the others one place on, around the four. *)
Theorem focus_moves_around k m
    (Hkey : cycles (KeyString k) = true)
    (Hnq : ~ (KeyString k = "enter" /\ index m = 3)) :
  let m' := fst (update (KeyMsg k) m) in
  0 <= index m' <= 3
  /\ snd (update (KeyMsg k) m) = None
  /\ (0 <= index m <= 3 ->
      index m' = if backward (KeyString k) then (index m + 3) mod 4
                 else (index m + 1) mod 4).
Proof.
  cbn zeta. rewrite (update_cycles k m Hkey Hnq). cbn [fst snd index].
  unfold moved.
  split; [|split; [reflexivity|]].
  - set (i := if backward (KeyString k) then to_int (index m - 1)
              else to_int (index m + 1)).
    destruct (3 <? i) eqn:E1; [lia|]. apply Z.ltb_ge in E1.
    destruct (i <? 0) eqn:E2; [lia|]. apply Z.ltb_ge in E2. lia.
  - intros Hr.
    destruct (backward (KeyString k)).
    + rewrite to_int_id by lia.
      destruct (3 <? index m - 1) eqn:E1; [apply Z.ltb_lt in E1; lia|].
      destruct (index m - 1 <? 0) eqn:E2;
        [apply Z.ltb_lt in E2|apply Z.ltb_ge in E2].
      * replace (index m) with 0 by lia. reflexivity.
      * replace (index m + 3) with (index m - 1 + 1 * 4) by lia.
        rewrite Z.mod_add, Z.mod_small by lia. reflexivity.
    + rewrite to_int_id by lia.
      destruct (3 <? index m + 1) eqn:E1;
        [apply Z.ltb_lt in E1|apply Z.ltb_ge in E1].
      * replace (index m) with 3 by lia. reflexivity.
      * destruct (index m + 1 <? 0) eqn:E2; [apply Z.ltb_lt in E2; lia|].
        rewrite Z.mod_small by lia. reflexivity.
Qed.

(** X19.  Moving the focus comes back.  From a place among the four, "down"
    and then "up" end on the place they started from, and so do "up" and
    then "down", and so do four "tab" in a row. *)
Theorem focus_round_trip (down up tab : Key) m
    (Hdown : KeyString down = "down") (Hup : KeyString up = "up")
    (Htab : KeyString tab = "tab")
    (Hrange : 0 <= index m <= 3) :
  let press k x := fst (update (KeyMsg k) x) in
  index (press up (press down m)) = index m
  /\ index (press down (press up m)) = index m
  /\ index (press tab (press tab (press tab (press tab m)))) = index m.
Proof.
  cbv beta zeta.
  assert (Hstep : forall k x, (KeyString k = "down" \/ KeyString k = "up"
                               \/ KeyString k = "tab") ->
            index (fst (update (KeyMsg k) x)) = moved (KeyString k) (index x)).
  { intros k x Hk. rewrite update_cycles; [reflexivity| |].
    - destruct Hk as [-> | [-> | ->]]; reflexivity.
    - intros [He _]. destruct Hk as [Hk | [Hk | Hk]]; rewrite Hk in He; discriminate. }
  rewrite !Hstep by auto. rewrite Hdown, Hup, Htab.
  unfold moved. cbn [backward String.eqb Ascii.eqb Bool.eqb orb].
  assert (H : index m = 0 \/ index m = 1 \/ index m = 2 \/ index m = 3) by lia.
  destruct H as [-> | [-> | [-> | ->]]]; repeat split; reflexivity.
Qed.

(** X20.  The styling follows the focus.  After a key that moves the focus,
    whatever the model was: the input at the new index, if there is one,
    has been through [Focus] and has the focused prompt and text colour,
    every other input has been through [Blur] and has the blurred prompt
    and no text colour, and the submit button is the focused one exactly
    when the index is 3.  [initialize] gives the prompts and the button
    that go with index 0. *)
Theorem styling_follows_focus k m
    (Hkey : cycles (KeyString k) = true)
    (Hnq : ~ (KeyString k = "enter" /\ index m = 3)) :
  let m' := fst (update (KeyMsg k) m) in
  let idx := index m' in
  let restyled (i : Z) (x : input_Model InputRest) :=
    if i =? idx
    then {| Placeholder := Placeholder (input_Focus x); Prompt := focusedPrompt;
            TextColor := focusedText; input_rest := input_rest (input_Focus x) |}
    else {| Placeholder := Placeholder (input_Blur x); Prompt := blurredPrompt;
            TextColor := ""; input_rest := input_rest (input_Blur x) |} in
  styled idx m'
  /\ nameInput m' = restyled 0 (nameInput m)
  /\ nickNameInput m' = restyled 1 (nickNameInput m)
  /\ emailInput m' = restyled 2 (emailInput m)
  /\ styled 0 (fst (initialize tt)).
Proof.
  cbv beta zeta. rewrite (update_cycles k m Hkey Hnq).
  cbn [fst index nameInput nickNameInput emailInput submitButton restyle nth Z.add
       Pos.add].
  set (idx := moved (KeyString k) (index m)).
  unfold styled.
  cbn [index nameInput nickNameInput emailInput submitButton].
  split; [|split; [|split; [|split]]].
  - split; [reflexivity|].
    destruct (0 =? idx), (1 =? idx), (2 =? idx); repeat split; reflexivity.
  - destruct (0 =? idx); reflexivity.
  - destruct (1 =? idx); reflexivity.
  - destruct (2 =? idx); reflexivity.
  - repeat split.
Qed.

(** The keys that quit.  "ctrl+c" at any place, and "enter" on the submit button, leave
    the model as it is and ask for the command whose message is the quit
    message. *)
Theorem quitting_keys k m
    (Hkey : KeyString k = "ctrl+c" \/ (KeyString k = "enter" /\ index m = 3)) :
  update (KeyMsg k) m = (m, Some Quit)
  /\ Quit (Key:=Key) (UserMsg:=UserMsg) tt = quitMsg.
Proof.
  split; [|reflexivity].
  unfold update. destruct Hkey as [-> | [-> ->]]; reflexivity.
Qed.

(** X21.  Every other message goes to the three inputs, in the order
    name, nickname, email: each input is replaced by what [input.Update]
    makes of it, the index and the submit button stay, and the command
    asked for is never nil: it is the batch of the three commands of the
    inputs, in that order, whether they are nil or not. *)
Theorem other_messages_go_to_inputs (msg : Msg Key UserMsg) m
    (Hmsg : for_inputs msg) :
  let name := input_Update msg (nameInput m) in
  let nickName := input_Update msg (nickNameInput m) in
  let email := input_Update msg (emailInput m) in
  fst (update msg m)
  = {| index := index m; nameInput := fst name; nickNameInput := fst nickName;
       emailInput := fst email; submitButton := submitButton m |}
  /\ exists f, snd (update msg m) = Some f
               /\ f tt = batchMsg [snd name; snd nickName; snd email].
Proof.
  cbv beta zeta.
  assert (Hu : update msg m = updateInputs msg m).
  { unfold update. destruct msg as [k| | |]; try reflexivity.
    destruct Hmsg as [Hc Hcy]. rewrite Hcy.
    destruct (String.eqb (KeyString k) "ctrl+c") eqn:E; [|reflexivity].
    apply String.eqb_eq in E. contradiction. }
  rewrite Hu. unfold updateInputs.
  destruct (input_Update msg (nameInput m)) as [x1 c1].
  destruct (input_Update msg (nickNameInput m)) as [x2 c2].
  destruct (input_Update msg (emailInput m)) as [x3 c3].
  cbn [fst snd app]. split; [reflexivity|].
  eexists. split; reflexivity.
Qed.

Lemma newlines_app (a b : string) : newlines (a ++ b) = (newlines a + newlines b)%nat.
Proof.
  induction a as [|c a IH]; [reflexivity|].
  cbn [append newlines]. rewrite IH. lia.
Qed.

(** X22.  The view of the example has six line feeds of its own, besides
    those of the views of the three inputs and of the button, and ends in
    one; so every repaint that follows one of its views erases at least six
    lines. *)
Theorem view_has_six_lines m m' (N : Z) :
  let lines :=
    (6 + newlines (input_View (nameInput m))
       + newlines (input_View (nickNameInput m))
       + newlines (input_View (emailInput m))
       + newlines (submitButton m))%nat in
  newlines (view m) = lines
  /\ (exists body, view m = body ++ nl)
  /\ fst (render program m N) = Z.of_nat lines
  /\ snd (render program m' (fst (render program m N)))
     = [EvClearLines (Z.of_nat lines);
        EvWrite (strings.ReplaceAll (view m') nl crnl)].
Proof.
  cbv beta zeta.
  assert (Hl : newlines (view m)
               = (6 + newlines (input_View (nameInput m))
                  + newlines (input_View (nickNameInput m))
                  + newlines (input_View (emailInput m))
                  + newlines (submitButton m))%nat).
  { unfold view. cbn [lines_of]. rewrite !newlines_app.
    change (newlines nl) with 1%nat. lia. }
  split; [exact Hl|]. split.
  - unfold view. eexists. rewrite <- !string_app_assoc. reflexivity.
  - rewrite !render_example. cbn [fst snd].
    rewrite Count_ReplaceAll, Hl. split; [reflexivity|].
    destruct (0 <? Z.of_nat _) eqn:E; [reflexivity|].
    apply Z.ltb_ge in E. lia.
Qed.

End TextinputsProps.

(** * The further statements on sample inputs *)


Lemma interrupted_waits_retried_witness :
  selectInputReader.ReadInput Sample.sel [SelectErr 4; SelectErr 4] None (DecodeOk tt)
    = (Blocked, [SysSelect 4 9; SysSelect 4 9; SysSelect 4 9])
  /\ epollInputReader.ReadInput Sample.ep [EpollErr 4; EpollErr 4] None (DecodeOk tt)
    = (Blocked, [SysEpollWait 5; SysEpollWait 5; SysEpollWait 5]).
Proof.
  assert (H3 : selectInputReader.maxFd Sample.sel < FD_SETSIZE) by (vm_compute; reflexivity).
  exact (proj2 (proj2 (interrupted_waits_retried Sample.sel Sample.ep 2 [] [] None
                         (DecodeOk tt) eq_refl eq_refl H3))).
Defined.

Lemma wait_failure_is_returned_witness :
  9 <> 4
  /\ selectInputReader.ReadInput Sample.sel [SelectErr 4; SelectErr 9] None (DecodeOk tt)
    = (Returned ([], Some (wrapError "select: errno 9" (Errno 9))),
       [SysSelect 4 9; SysSelect 4 9])
  /\ epollInputReader.ReadInput Sample.ep [EpollErr 4; EpollErr 9] None (DecodeOk tt)
    = (Returned ([], Some (wrapError "kevent: errno 9" (Errno 9))),
       [SysEpollWait 5; SysEpollWait 5]).
Proof.
  assert (H3 : selectInputReader.maxFd Sample.sel < FD_SETSIZE) by (vm_compute; reflexivity).
  assert (H9 : 9 <> 4) by discriminate.
  split; [exact H9|].
  pose proof (wait_failure_is_returned Sample.sel Sample.ep 1 9 [] [] None (DecodeOk tt)
                eq_refl eq_refl H3 H9) as H.
  cbn zeta in H. destruct H as (Ha & Hb & _). split; [exact Ha|exact Hb].
Defined.


Lemma select_watches_both_witness :
  exists nfd fds,
    snd (waitForRead 0 3 None) = [SysSelect nfd fds]
    /\ to_int 0 < nfd /\ to_int 3 < nfd /\ nfd <= FD_SETSIZE
    /\ forall fd, FdSet.IsSet fds fd = (fd =? to_int 0) || (fd =? to_int 3).
Proof.
  assert (H0 : 0 <= to_int 0 < FD_SETSIZE) by (split; vm_compute; congruence).
  assert (H3 : 0 <= to_int 3 < FD_SETSIZE) by (split; vm_compute; congruence).
  exact (select_watches_both (P:=Sample.platform) 0 3 None H0 H3).
Defined.

Lemma registration_and_wait_agree_witness :
  exists r,
    newInputReader (osFile 0) (CreateOk 5) (PipeOk 3 4) None None
    = (UseEpoll r,
       [CallEpollCreate1 0; CallPipe;
        CallEpollCtlAdd 5 0 EPOLLIN 0; CallEpollCtlAdd 5 3 EPOLLIN 3])
    /\ epollInputReader.ReadInput r [EpollOk 0] None (DecodeOk tt)
       = (Returned ([tt], None), [SysEpollWait 5; SysDecode 0])
    /\ epollInputReader.ReadInput r [EpollOk 3] None (DecodeOk tt)
       = (Returned ([], Some errCanceled), [SysEpollWait 5; SysRead 3 1]).
Proof.
  assert (H0 : 0 <= 0 < 2 ^ 31) by (split; vm_compute; congruence).
  assert (H3 : 0 <= 3 < 2 ^ 31) by (split; vm_compute; congruence).
  assert (Hne : 0 <> 3) by discriminate.
  exact (registration_and_wait_agree (P:=Sample.platform) 0 5 3 4 [] (DecodeOk tt)
           H0 H3 Hne).
Defined.

Lemma terminal_setup_failure_witness :
  exists labels s,
    run Sample.prog (boot Sample.prog (Some (errorString "not a terminal")) Sample.reads)
        [ChMain] = Some (labels, s)
    /\ labels = [LMain EvInitTerminal]
    /\ sys_next s = Exit (Some (errorString "not a terminal"))
    /\ sys_pump s = None /\ sys_disp s = DispNotStarted.
Proof.
  eexists. eexists. split; [vm_compute; reflexivity|].
  split; [reflexivity|].
  pose proof (terminal_setup_failure nat nat unit Sample.prog
                (errorString "not a terminal") Sample.reads [ChMain] _ _ eq_refl) as H.
  destruct H as (_ & Hn & Hp & Hd & _). auto.
Defined.

Lemma recorded_lines_match_view_witness :
  exists labels s,
    run Sample.prog (boot Sample.prog None Sample.reads) Demo.one_key = Some (labels, s)
    /\ sys_next s = Wait 1%nat 1
    /\ 1 = Z.of_nat (newlines (view Sample.prog 1%nat)).
Proof.
  eexists. eexists. split; [vm_compute; reflexivity|].
  split; [vm_compute; reflexivity|].
  refine (recorded_lines_match_view nat nat unit Sample.prog None Sample.reads
            Demo.one_key _ _ 1%nat 1 _ _); vm_compute; reflexivity.
Defined.

Lemma model_is_fold_of_updates_witness :
  exists labels s,
    run Sample.prog (boot Sample.prog None Sample.reads) Demo.one_key = Some (labels, s)
    /\ sys_next s = Wait 1%nat 1
    /\ 1%nat = apply_received Sample.prog labels (fst (init Sample.prog tt)).
Proof.
  eexists. eexists. split; [vm_compute; reflexivity|].
  split; [vm_compute; reflexivity|].
  refine (model_is_fold_of_updates nat nat unit Sample.prog Sample.reads
            Demo.one_key _ _ 1%nat 1 _ _); vm_compute; reflexivity.
Defined.

Lemma Batch_is_expanded_witness :
  exists s',
    run Sample.prog (Demo.dispatching (Batch [None; Some Quit]))
        [ChDispatch 0; ChRecvCmd 0; ChMain; ChMain]
    = Some ([LDispatch (Batch [None; Some Quit]);
             LRecvCmd (batchMsg [None; Some Quit]);
             LMain (EvSendCmd None); LMain (EvSendCmd (Some Quit))], s')
    /\ sys_ops s' = [] /\ sys_next s' = Wait 0%nat 1
    /\ sys_cmd_senders s' = []
    /\ sys_msg_senders s' = [quitMsg].
Proof.
  exact (Batch_is_expanded nat nat unit Sample.prog
           (Demo.dispatching (Batch [None; Some Quit])) 0 [] [None; Some Quit]
           0%nat 1 eq_refl eq_refl eq_refl eq_refl).
Defined.

Lemma failed_read_is_last_witness :
  exists before after s,
    run Sample.prog (boot Sample.prog None Sample.reads) Sample.schedule
    = Some ((before ++ LRead 1 (0%nat, Some (errorString "EOF")) :: after)%list, s)
    /\ List.length before = 11%nat
    /\ after = [LRecvErr 1 (errorString "EOF"); LMain EvCloseDone]
    /\ Forall (fun l => ~ is_read l) after
    /\ pump_stuck s.
Proof.
  pose (before := [LMain EvInitTerminal; LMain EvInit;
                   LMain (EvWrite (String "x" crnl));
                   LMain (EvGo GoPump); LMain (EvGo GoDispatcher);
                   LRead 0 (1%nat, None); LRecvPump 0 (KeyMsg 1%nat);
                   LMain (EvUpdate (KeyMsg 1%nat) 0%nat); LMain (EvSendCmd None);
                   LMain (EvClearLines 1); LMain (EvWrite (String "x" crnl))]
                  : list (Label nat nat unit)).
  pose (after := [LRecvErr 1 (errorString "EOF"); LMain EvCloseDone]
                 : list (Label nat nat unit)).
  exists before, after.
  eexists. split; [vm_compute; reflexivity|].
  split; [reflexivity|]. split; [reflexivity|].
  refine (failed_read_is_last nat nat unit Sample.prog None Sample.reads
            Sample.schedule before 1%nat 0%nat (errorString "EOF") after _ _).
  vm_compute. reflexivity.
Defined.

Lemma main_is_never_stuck_witness :
  exists labels s,
    run Sample.prog (boot Sample.prog None Sample.reads) Demo.before_send
    = Some (labels, s)
    /\ sys_ops s = [EvSendCmd None; EvClearLines 1; EvWrite (String "x" crnl)]
    /\ (exists s', step Sample.prog s ChMain = Some (LMain (EvSendCmd None), s')
                   /\ sys_ops s' = [EvClearLines 1; EvWrite (String "x" crnl)])
    /\ sys_disp s = DispRunning.
Proof.
  eexists. eexists. split; [vm_compute; reflexivity|].
  split; [vm_compute; reflexivity|].
  match goal with
  | |- _ /\ sys_disp ?s = _ =>
      assert (Hrun : run Sample.prog (boot Sample.prog None Sample.reads)
                         Demo.before_send
                     = Some ([LMain EvInitTerminal; LMain EvInit;
                              LMain (EvWrite (String "x" crnl));
                              LMain (EvGo GoPump); LMain (EvGo GoDispatcher);
                              LRead 0 (1%nat, None); LRecvPump 0 (KeyMsg 1%nat);
                              LMain (EvUpdate (KeyMsg 1%nat) 0%nat)], s))
        by (vm_compute; reflexivity);
      assert (Hops : sys_ops s
                     = [EvSendCmd None; EvClearLines 1; EvWrite (String "x" crnl)])
        by (vm_compute; reflexivity);
      destruct (main_is_never_stuck nat nat unit Sample.prog None Sample.reads
                  Demo.before_send _ s _ _ Hrun Hops) as [Hstep Hsend]
  end.
  split; [exact Hstep|]. exact (proj1 (Hsend None eq_refl)).
Defined.

Lemma view_without_line_feed_witness :
  newlines (view Demo.one_liner 0%nat) = 0%nat
  /\ snd (render Demo.one_liner 0%nat 0) = [EvWrite "ready"]
  /\ fst (render Demo.one_liner 0%nat 0) = 0
  /\ snd (render Demo.one_liner 1%nat (fst (render Demo.one_liner 0%nat 0)))
     = [EvWrite "ready"].
Proof.
  split; [reflexivity|].
  exact (view_without_line_feed nat nat unit Demo.one_liner 0%nat 1%nat 0 eq_refl).
Defined.

(** The example of the comment of [Every]: ticking for one minute at
    12:34:20, the tick comes at 12:35:00, forty seconds later. *)
Lemma Every_waits_to_boundary_witness :
  0 < Demo.minute
  /\ fst (Every Demo.minute (fun t => t) Demo.at_12_34_20 (fun d => Demo.at_12_34_20 + d))
     = 40 * Demo.second
  /\ snd (Every Demo.minute (fun t => t) Demo.at_12_34_20 (fun d => Demo.at_12_34_20 + d))
     = ((12 * 60 + 35) * 60) * Demo.second.
Proof.
  assert (H : 0 < Demo.minute) by reflexivity.
  split; [exact H|].
  pose proof (Every_waits_to_boundary Z Demo.minute (fun t => t) Demo.at_12_34_20
                (fun d => Demo.at_12_34_20 + d) H) as Hw.
  cbn zeta in Hw. destruct Hw as (_ & _ & _ & _ & Hmsg & _).
  split; [reflexivity|]. rewrite Hmsg. reflexivity.
Defined.

Lemma focus_moves_around_witness :
  textinputs.cycles "shift+tab" = true
  /\ textinputs.index (fst (textinputs.update (KeyMsg "shift+tab") Demo.start_model)) = 3
  /\ snd (textinputs.update (UserMsg:=unit) (KeyMsg "shift+tab") Demo.start_model) = None.
Proof.
  assert (Hnq : ~ ("shift+tab" = "enter" /\ textinputs.index Demo.start_model = 3))
    by (intros [H _]; discriminate).
  pose proof (focus_moves_around (I:=Demo.imports) "shift+tab" Demo.start_model
                eq_refl Hnq) as H.
  cbn zeta in H. destruct H as (_ & Hcmd & Hidx).
  split; [reflexivity|]. split; [|exact Hcmd].
  rewrite Hidx; [reflexivity|]. split; vm_compute; congruence.
Defined.

Lemma focus_round_trip_witness :
  textinputs.index
    (fst (textinputs.update (UserMsg:=unit) (KeyMsg "up")
            (fst (textinputs.update (KeyMsg "down") Demo.on_button))))
  = 3.
Proof.
  assert (Hr : 0 <= textinputs.index Demo.on_button <= 3)
    by (split; vm_compute; congruence).
  exact (proj1 (focus_round_trip (I:=Demo.imports) "down" "up" "tab" Demo.on_button
                  eq_refl eq_refl eq_refl Hr)).
Defined.

Lemma styling_follows_focus_witness :
  textinputs.cycles "down" = true
  /\ textinputs.styled 1 (fst (textinputs.update (UserMsg:=unit) (KeyMsg "down")
                                 Demo.start_model)).
Proof.
  assert (Hnq : ~ ("down" = "enter" /\ textinputs.index Demo.start_model = 3))
    by (intros [H _]; discriminate).
  split; [reflexivity|].
  exact (proj1 (styling_follows_focus (I:=Demo.imports) "down" Demo.start_model
                  eq_refl Hnq)).
Defined.

Lemma quitting_keys_witness :
  textinputs.update (UserMsg:=unit) (KeyMsg "enter") Demo.on_button
  = (Demo.on_button, Some Quit).
Proof.
  exact (proj1 (quitting_keys (I:=Demo.imports) "enter" Demo.on_button
                  (or_intror (conj eq_refl eq_refl)))).
Defined.

Lemma other_messages_go_to_inputs_witness :
  textinputs.for_inputs (I:=Demo.imports) (KeyMsg "a")
  /\ exists f, snd (textinputs.update (UserMsg:=unit) (KeyMsg "a") Demo.start_model)
               = Some f
               /\ f tt = batchMsg [None; None; None].
Proof.
  assert (H : textinputs.for_inputs (I:=Demo.imports) (KeyMsg "a")).
  { split; [discriminate|reflexivity]. }
  split; [exact H|].
  exact (proj2 (other_messages_go_to_inputs (I:=Demo.imports) (KeyMsg "a")
                  Demo.start_model H)).
Defined.
